(** * Resumable remote-file fetcher of mne/utils.py

    Shallow embedding of [sizeof_fmt], [ProgressBar], [_chunk_read_] and
    [_fetch_file] (Python 2).  Stateful code runs in a small state and
    exception monad over a [world] holding the two files the fetcher
    touches, the output written to stdout/stderr and the network operations
    issued.  The network and the FTP server are supplied by an environment
    record. *)

From Stdlib Require Import String Ascii List ZArith QArith Qround Lia.
Import ListNotations.
Open Scope string_scope.

(** ** Strings and numbers *)

Definition is_digit (c : ascii) : bool :=
  let n := nat_of_ascii c in (48 <=? n)%nat && (n <=? 57)%nat.

Definition digit_value (c : ascii) : Z := Z.of_nat (nat_of_ascii c - 48).

Definition digit_char (d : N) : ascii := ascii_of_N (48 + d).

(** Decimal rendering of a natural number ([str] on a non-negative int). *)
Fixpoint digits_rev (fuel : nat) (n : N) : string :=
  match fuel with
  | O => EmptyString
  | S f =>
      let s := String (digit_char (N.modulo n 10)) EmptyString in
      if (n <? 10)%N then s else digits_rev f (N.div n 10) ++ s
  end.

Definition str_N (n : N) : string := digits_rev (S (N.size_nat n)) n.

Definition str_Z (z : Z) : string :=
  if (z <? 0)%Z then "-" ++ str_N (Z.to_N (- z)) else str_N (Z.to_N z).

(** Python's [str.strip()] with no argument: ASCII whitespace. *)
Definition is_space (c : ascii) : bool :=
  let n := nat_of_ascii c in
  (n =? 32)%nat || ((9 <=? n)%nat && (n <=? 13)%nat).

Fixpoint lstrip (s : string) : string :=
  match s with
  | EmptyString => EmptyString
  | String c r => if is_space c then lstrip r else s
  end.

Fixpoint rev_string (s : string) (acc : string) : string :=
  match s with
  | EmptyString => acc
  | String c r => rev_string r (String c acc)
  end.

Definition strip (s : string) : string :=
  rev_string (lstrip (rev_string (lstrip s) EmptyString)) EmptyString.

Fixpoint parse_digits (s : string) (acc : Z) : option Z :=
  match s with
  | EmptyString => Some acc
  | String c r =>
      if is_digit c then parse_digits r (acc * 10 + digit_value c) else None
  end.

Definition parse_unsigned (s : string) : option Z :=
  match s with
  | EmptyString => None
  | _ => parse_digits s 0
  end.

(** Python 2 [int(s)] on a [str], base 10 ([PyInt_FromString] with
    [PyOS_strtol] and [PyOS_strtoul]): whitespace, an optional sign,
    whitespace again (skipped by [PyOS_strtoul]), at least one decimal
    digit, then trailing whitespace; anything else raises [ValueError]. *)
Definition parse_int (s : string) : option Z :=
  match strip s with
  | String "+" r => parse_unsigned (lstrip r)
  | String "-" r => option_map Z.opp (parse_unsigned (lstrip r))
  | t => parse_unsigned t
  end.

(** ** Exceptions *)

(** Python exception classes the fetcher can raise or catch.  [FtpError]
    stands for [ftplib.error_perm], [error_temp] and [error_reply];
    [SocketError] for [socket.error] and [EOFError]. *)
Inductive exc :=
| HTTPError | URLError | FtpError | SocketError | IOError
| ValueError | AttributeError | TypeError | ZeroDivisionError
| OverflowError | NameError | RecursionError.

Inductive res (A : Type) :=
| Ok (a : A)
| Raise (e : exc).
Arguments Ok {A} a.
Arguments Raise {A} e.

(** ** [sizeof_fmt] *)

Definition unit_list : list (string * nat) :=
  [("bytes", 0%nat); ("kB", 0%nat); ("MB", 1%nat);
   ("GB", 2%nat); ("TB", 2%nat); ("PB", 2%nat)].

(** [int(log(num, 1024))] for [num > 1].  CPython computes
    [log(num) / log(1024)] in double precision.  On an integer, the only
    argument the code passes ([_download_status] gives an [int]), the
    integer part is that of the exact logarithm, the largest [e] with
    [1024 ^ e <= num], except for [2 ^ 50 - 3], [2 ^ 50 - 2] and
    [2 ^ 50 - 1], whose quotient rounds to [5.0].  (For a float just below
    a power of 1024 the rounding can also give the next exponent; this
    model takes the integer part of such an argument.) *)
Definition int_log1024 (num : Q) : nat :=
  let n := Qfloor num in
  if (2 ^ 50 - 3 <=? n)%Z && (n <? 2 ^ 50)%Z then 5%nat
  else Z.to_nat (Z.log2 n / 10).

(** [a / d] rounded half to even, for [d > 0]. *)
Definition round_div (a d : Z) : Z :=
  let f := (a / d)%Z in
  let r := (a mod d)%Z in
  if (2 * r <? d)%Z then f
  else if (2 * r =? d)%Z then (if Z.even f then f else f + 1)%Z
  else (f + 1)%Z.

(** [float(num)] for [num >= 1]: the nearest double, as a 53-bit
    significand [m] and a binary exponent [e] ([num] is about [m * 2 ^ e]);
    ties go to the even significand. *)
Definition float_parts (num : Q) : Z * Z :=
  let a := Qnum num in
  let b := Zpos (Qden num) in
  let e := (Z.log2 (a / b) - 52)%Z in
  if (0 <=? e)%Z then (round_div a (b * 2 ^ e), e)
  else (round_div (a * 2 ^ (- e)) b, e).

Definition py_float (num : Q) : Q :=
  let '(m, e) := float_parts num in
  if (0 <=? e)%Z then inject_Z (m * 2 ^ e) else m # Z.to_pos (2 ^ (- e)).

(** [float(num)] raises [OverflowError]: the nearest double would be
    [2 ^ 1024] or more. *)
Definition float_overflows (num : Q) : bool :=
  let '(m, e) := float_parts num in
  (0 <=? e)%Z && (2 ^ 1024 <=? m * 2 ^ e)%Z.

Definition pow1024 (e : nat) : Q := inject_Z (2 ^ (10 * Z.of_nat e)).

(** Round half to even of a non-negative rational to an integer, as
    [format] does with the exact value of the float. *)
Definition round_half_even (q : Q) : Z :=
  let f := Qfloor q in
  let r := q - inject_Z f in
  if Qlt_le_dec r (1 # 2) then f
  else if Qeq_bool r (1 # 2) then (if Z.even f then f else f + 1)
  else f + 1.

Fixpoint pad_zeros (n : nat) (s : string) : string :=
  match n with
  | O => s
  | S k => if (String.length s <? S k)%nat then pad_zeros k ("0" ++ s) else s
  end.

(** ['{:.<d>f}'.format(q)] for a non-negative [q]. *)
Definition format_fixed (d : nat) (q : Q) : string :=
  let r := round_half_even (q * inject_Z (10 ^ Z.of_nat d)) in
  match d with
  | O => str_Z r
  | S _ =>
      str_Z (r / 10 ^ Z.of_nat d) ++ "." ++
      pad_zeros d (str_Z (r mod 10 ^ Z.of_nat d))
  end.

(** [sizeof_fmt(num)]; [Ok None] is the Python [None] obtained by falling
    through every branch.  [quotient] is [float(num) / 1024 ** exponent],
    a division by a power of two, hence exact. *)
Definition sizeof_fmt (num : Q) : res (option string) :=
  if Qlt_le_dec 1 num then
    let exponent := Nat.min (int_log1024 num) (List.length unit_list - 1) in
    if float_overflows num then Raise OverflowError else
    let quotient := py_float num / pow1024 exponent in
    let '(unit, num_decimals) := nth exponent unit_list ("", O) in
    Ok (Some (format_fixed num_decimals quotient ++ " " ++ unit))
  else if Qeq_bool num 0 then Ok (Some "0 bytes")
  else if Qeq_bool num 1 then Ok (Some "1 byte")
  else Ok None.

(** ** World and the fetcher's monad *)

Definition bytes := list Byte.byte.


(** Output written by the fetcher: [print] lines, [ProgressBar.update]
    renderings (current value, maximum value, spinner index) and writes to
    stderr. *)
Inductive event :=
| Stdout (line : string)
| Bar (cur max : Z) (spinner_index : nat)
| Stderr (s : string).

(** Network operations issued. *)
Inductive netop :=
| UrlOpen (url : string)
| FtpConnect (url : string)
| FtpCmd (cmd : string).

(** The part of the process state the fetcher observes and changes: whether
    [data_dir] exists, the file at [full_name] and the file at
    [temp_full_name] (absent or present with its contents), and the output
    and network traces. *)
Record world := mkWorld {
  w_dir : bool;
  w_final : option bytes;
  w_temp : option bytes;
  w_out : list event;
  w_net : list netop
}.

Definition M (A : Type) := world -> world * res A.

Definition ret {A} (a : A) : M A := fun w => (w, Ok a).

Definition bind {A B} (m : M A) (k : A -> M B) : M B :=
  fun w => match m w with
           | (w', Ok a) => k a w'
           | (w', Raise e) => (w', Raise e)
           end.

Definition raise {A} (e : exc) : M A := fun w => (w, Raise e).

(** [try: m except e: h(e)] *)
Definition try_except {A} (m : M A) (h : exc -> M A) : M A :=
  fun w => match m w with
           | (w', Raise e) => h e w'
           | r => r
           end.

Notation "x <- m ;; k" := (bind m (fun x => k))
  (at level 61, m at next level, right associativity).
Notation "m ;; k" := (bind m (fun _ => k))
  (at level 61, right associativity).

Definition get : M world := fun w => (w, Ok w).

Definition when (b : bool) (m : M unit) : M unit := if b then m else ret tt.

Definition emit (ev : event) : M unit :=
  fun w => ({| w_dir := w_dir w; w_final := w_final w; w_temp := w_temp w;
               w_out := w_out w ++ [ev]; w_net := w_net w |}, Ok tt).

Definition net (op : netop) : M unit :=
  fun w => ({| w_dir := w_dir w; w_final := w_final w; w_temp := w_temp w;
               w_out := w_out w; w_net := w_net w ++ [op] |}, Ok tt).

Definition set_dir (b : bool) : M unit :=
  fun w => ({| w_dir := b; w_final := w_final w; w_temp := w_temp w;
               w_out := w_out w; w_net := w_net w |}, Ok tt).

Definition set_final (f : option bytes) : M unit :=
  fun w => ({| w_dir := w_dir w; w_final := f; w_temp := w_temp w;
               w_out := w_out w; w_net := w_net w |}, Ok tt).

Definition set_temp (f : option bytes) : M unit :=
  fun w => ({| w_dir := w_dir w; w_final := w_final w; w_temp := f;
               w_out := w_out w; w_net := w_net w |}, Ok tt).

(** [local_file.write(chunk)] on the temp file opened for writing. *)
Definition write_temp (chunk : bytes) : M unit :=
  w <- get ;;
  set_temp (Some (app (match w_temp w with Some b => b | None => [] end) chunk)).

(** ** The environment: network transports *)

(** The object returned by [urllib2.urlopen]: its [Content-Length] header
    ([getheader] gives [None] when absent), its body, and the error the
    connection raises once the delivered body is exhausted, if any. *)
Record response := {
  r_content_length : option string;
  r_body : bytes;
  r_err : option exc
}.

(** The behaviour of the FTP server behind a URL: the error raised by
    [connect], [login] or [cwd]; by [sendcmd("TYPE I")] or
    [sendcmd("REST n")]; and what [retrbinary] delivers to its callback
    before finishing or raising. *)
Record ftp_server := {
  ftp_login_err : option exc;
  ftp_rest_err : option exc;
  ftp_retr : bytes;
  ftp_retr_err : option exc
}.

Record env := {
  urlopen : string -> res response;
  ftp_session : string -> ftp_server
}.

(** ftplib only raises its own errors and socket errors. *)
Definition ftplib_error (e : exc) : Prop := e = FtpError \/ e = SocketError.

Definition ftplib_errors_only (E : env) : Prop :=
  forall u,
    (forall e, ftp_login_err (ftp_session E u) = Some e -> ftplib_error e) /\
    (forall e, ftp_rest_err (ftp_session E u) = Some e -> ftplib_error e) /\
    (forall e, ftp_retr_err (ftp_session E u) = Some e -> ftplib_error e).

(** [raise e] when an operation reports an error. *)
Definition raise_opt (o : option exc) : M unit :=
  match o with Some e => raise e | None => ret tt end.

Definition lift {A} (r : res A) : M A := fun w => (w, r).

Definition newline : string := String (ascii_of_nat 10) EmptyString.

(** ** [ProgressBar] *)

Definition max_chars : nat := 40.
Definition n_spinner : nat := 4.

Record progress_bar := {
  pb_cur_value : Z;
  pb_max_value : Z;
  pb_spinner : bool;
  pb_spinner_index : nat
}.

(** [ProgressBar(initial_value, max_value, max_chars=40, spinner=True,
    mesg='downloading')]: [float(max_value)] raises [TypeError] on [None]. *)
Definition progress_bar_init (initial_value : Z) (max_value : option Z)
    : M progress_bar :=
  match max_value with
  | None => raise TypeError
  | Some m => ret {| pb_cur_value := initial_value; pb_max_value := m;
                    pb_spinner := true; pb_spinner_index := 0 |}
  end.

(** [progress.update(cur_value)]: float division by [max_value] (raising
    [ZeroDivisionError] at [0.0]), one rendering written to stdout, then the
    spinner advances. *)
Definition progress_bar_update (p : progress_bar) (cur_value : Z)
    : M progress_bar :=
  if (pb_max_value p =? 0)%Z then raise ZeroDivisionError
  else
    emit (Bar cur_value (pb_max_value p) (pb_spinner_index p)) ;;
    ret {| pb_cur_value := cur_value; pb_max_value := pb_max_value p;
           pb_spinner := pb_spinner p;
           pb_spinner_index :=
             if pb_spinner p then Nat.modulo (S (pb_spinner_index p)) n_spinner
             else pb_spinner_index p |}.

(** ** [_chunk_read_] *)

Inductive pyobj := PyNone | PyInt (z : Z).

(** [response.read(n)] on a stream whose undelivered bytes are [rem]: up to
    [n] bytes, or the connection's error once the body is exhausted. *)
Definition response_read (err : option exc) (rem : bytes) (n : nat) : res bytes :=
  match rem, err with
  | [], Some e => Raise e
  | _, _ => Ok (firstn n rem)
  end.

(** The [while True] loop.  [fuel] bounds the iterations; [_chunk_read_]
    gives one more than the body's length, which every run stays within. *)
Fixpoint read_loop (fuel : nat) (err : option exc) (rem : bytes)
    (chunk_size : nat) (report_hook : bool) (progress : option progress_bar)
    (bytes_so_far : Z) : M unit :=
  match fuel with
  | O => ret tt
  | S f =>
      match response_read err rem chunk_size with
      | Raise e => raise e
      | Ok chunk =>
          let bytes_so_far := (bytes_so_far + Z.of_nat (length chunk))%Z in
          match chunk with
          | [] => when report_hook (emit (Stderr newline))
          | _ =>
              write_temp chunk ;;
              progress <-
                (match report_hook, progress with
                 | true, Some p => p' <- progress_bar_update p bytes_so_far ;;
                                   ret (Some p')
                 | _, _ => ret progress
                 end) ;;
              read_loop f err (skipn chunk_size rem) chunk_size report_hook
                progress bytes_so_far
          end
      end
  end.

(** [_chunk_read_(response, local_file, chunk_size, report_hook,
    initial_size, total_size, verbose)]; [local_file] is the temp file, and
    [total_size] is [None] or the string to parse. *)
Definition _chunk_read_ (response : response) (chunk_size : nat)
    (report_hook : bool) (initial_size : Z) (total_size : option string)
    (verbose : Z) : M pyobj :=
  total_size <-
    (match total_size with
     | None =>
         match r_content_length response with
         | None => raise AttributeError        (* None.strip() *)
         | Some s => ret (strip s)
         end
     | Some s => ret s
     end) ;;
  total_size <-
    (match parse_int total_size with
     | Some t => ret (Some (t + initial_size)%Z)
     | None =>
         when (0 <? verbose)%Z
           (emit (Stdout "Warning: total size could not be determined.") ;;
            when (1 <? verbose)%Z (emit (Stdout "Full stack trace: ValueError"))) ;;
         ret None
     end) ;;
  let bytes_so_far := initial_size in
  progress <-
    (if report_hook then p <- progress_bar_init bytes_so_far total_size ;;
                         ret (Some p)
     else ret None) ;;
  read_loop (S (length (r_body response))) (r_err response) (r_body response)
    chunk_size report_hook progress bytes_so_far ;;
  ret PyNone.

(** ** [_fetch_file] *)

(** [os.path.basename]: what follows the last ['/']. *)
Fixpoint basename_acc (s acc : string) : string :=
  match s with
  | EmptyString => acc
  | String c r =>
      if ascii_dec c "/" then basename_acc r EmptyString
      else basename_acc r (acc ++ String c EmptyString)
  end.

Definition basename (path : string) : string := basename_acc path EmptyString.

(** [os.path.join(a, b)] for a relative [b]. *)
Definition path_join (a b : string) : string :=
  match a with
  | EmptyString => b
  | _ => match String.get (String.length a - 1) a with
         | Some "/"%char => a ++ b
         | _ => a ++ "/" ++ b
         end
  end.

Definition is_some {A} (o : option A) : bool :=
  match o with Some _ => true | None => false end.

Definition file_size (o : option bytes) : N :=
  match o with Some b => N.of_nat (length b) | None => 0%N end.

(** [shutil.move(temp_full_name, full_name)]. *)
Definition move_temp_to_final : M unit :=
  w <- get ;;
  match w_temp w with
  | None => raise IOError
  | Some b => set_final (Some b) ;; set_temp None
  end.

(** [_md5_sum_file(full_name)]: no function of that name is defined in or
    imported into mne/utils.py, so looking the name up raises [NameError]
    before the argument is evaluated. *)
Definition md5_sum_file : M string := raise NameError.

(** The resume branch of the [try] block of [_fetch_file] ([resume] set and
    the temp file present).  It yields [Some p] when the inner [except
    urllib2.HTTPError] handler ran [return _fetch_file(url, data_dir,
    resume=False, overwrite=False)], given here as [fallback], which
    returned [p]. *)
Definition resume_download (E : env) (url file_name : string)
    (local_file_size : N) (fallback : M string) : M (option string) :=
  (* Download has been interrupted, we try to resume it. *)
  net (FtpConnect url) ;;
  let srv := ftp_session E url in
  raise_opt (ftp_login_err srv) ;;
  try_except
    (net (FtpCmd "TYPE I") ;;
     net (FtpCmd ("REST " ++ str_N local_file_size)) ;;
     raise_opt (ftp_rest_err srv) ;;
     emit (Stdout file_name) ;;
     net (FtpCmd ("RETR " ++ file_name)) ;;
     write_temp (ftp_retr srv) ;;
     raise_opt (ftp_retr_err srv) ;;
     ret None)
    (fun e => match e with
              | HTTPError => p <- fallback ;; ret (Some p)
              | _ => raise e
              end).

(** The other branch of the [try] block: [urlopen], the temp file opened
    with mode ["wb"], then [_chunk_read_] with [report_hook=True]. *)
Definition full_download (E : env) (url : string) (verbose : Z)
    : M (option string) :=
  net (UrlOpen url) ;;
  data <- lift (urlopen E url) ;;
  set_temp (Some []) ;;
  _ <- _chunk_read_ data 8192 true 0 None verbose ;;
  ret None.

(** The [except urllib2.HTTPError] and [except urllib2.URLError] clauses
    of the outer [try]; both re-raise. *)
Definition fetch_error_handler (file_name url : string) (verbose : Z)
    (e : exc) : M (option string) :=
  match e with
  | HTTPError | URLError =>
      emit (Stdout ("Error while fetching file " ++ file_name ++
                    ". Dataset fetching aborted.")) ;;
      when (0 <? verbose)%Z
        (emit (Stdout (match e with HTTPError => "HTTP Error: "
                                  | _ => "URL Error: " end ++ url))) ;;
      raise e
  | _ => raise e
  end.

(** The body of the outer [try] of [_fetch_file]: the resumed or the full
    download, then the temp file moved to [full_name].  [Some p] when the
    resume branch executed [return p]. *)
Definition fetch_try_block (E : env) (url file_name : string)
    (resume : bool) (verbose : Z) (fallback : M string) : M (option string) :=
  emit (Stdout ("Downloading data from " ++ url ++ " ...")) ;;
  w <- get ;;
  returned <-
    (if resume && is_some (w_temp w)
     then resume_download E url file_name (file_size (w_temp w)) fallback
     else full_download E url verbose) ;;
  match returned with
  | Some p => ret (Some p)
  | None =>
      (* temp file must be closed prior to the move *)
      move_temp_to_final ;;
      emit (Stdout "...done.") ;;
      ret None
  end.

(** [_fetch_file(url, data_dir, resume, overwrite, md5sum, verbose)].
    [fuel] bounds the nesting of the fallback call in the resume branch
    (which passes [resume=False], so at most one nested call occurs).
    The [try] block yields [Some p] when it executed [return p] and [None]
    when it ran to its end.  Closing [local_file] has no effect in this
    model; elapsed times in the messages are left out. *)
Fixpoint fetch_file_fuel (fuel : nat) (E : env) (url data_dir : string)
    (resume overwrite : bool) (md5sum : option string) (verbose : Z)
    : M string :=
  match fuel with
  | O => raise RecursionError
  | S fuel' =>
  w <- get ;;
  when (negb (w_dir w)) (set_dir true) ;;
  let file_name := basename url in
  let temp_file_name := file_name ++ ".part" in
  let full_name := path_join data_dir file_name in
  let temp_full_name := path_join data_dir temp_file_name in
  w <- get ;;
  if is_some (w_final w) && negb overwrite then ret full_name else
  when (is_some (w_final w)) (set_final None) ;;
  w <- get ;;
  when (is_some (w_temp w) && overwrite) (set_temp None) ;;
  returned <- try_except
    (fetch_try_block E url file_name resume verbose
       (fetch_file_fuel fuel' E url data_dir false false None 0))
    (fetch_error_handler file_name url verbose) ;;
  match returned with
  | Some p => ret p
  | None =>
      match md5sum with
      | None => ret full_name
      | Some d =>
          h <- md5_sum_file ;;
          if String.eqb h d then ret full_name else raise ValueError
      end
  end
  end.

Definition _fetch_file (E : env) (url data_dir : string)
    (resume overwrite : bool) (md5sum : option string) (verbose : Z)
    : M string :=
  fetch_file_fuel 2 E url data_dir resume overwrite md5sum verbose.

(** ** [split_list] *)

(** A Python slice bound [i] on a sequence of length [len]: a negative
    index counts from the end, and the result is clipped to [0 .. len]. *)
Definition slice_index (len : nat) (i : Z) : nat :=
  let i := if (i <? 0)%Z then (i + Z.of_nat len)%Z else i in
  Z.to_nat (Z.max 0 (Z.min i (Z.of_nat len))).

(** [l[a:b]] *)
Definition py_slice {A} (l : list A) (a b : Z) : list A :=
  let i := slice_index (length l) a in
  let j := slice_index (length l) b in
  firstn (j - i) (skipn i l).

(** [l[a:]] *)
Definition py_slice_from {A} (l : list A) (a : Z) : list A :=
  skipn (slice_index (length l) a) l.

(** [list(split_list(l, n))] for an integer [n]: [len(l) / n] is Python 2's
    floor division, which raises [ZeroDivisionError] at [n = 0] when the
    generator is first advanced; [range(n - 1)] is empty for [n <= 1]. *)
Definition split_list {A} (l : list A) (n : Z) : res (list (list A)) :=
  if (n =? 0)%Z then Raise ZeroDivisionError else
  let sz := (Z.of_nat (length l) / n)%Z in
  Ok (map (fun i => py_slice l (i * sz) ((i + 1) * sz))
          (map Z.of_nat (seq 0 (Z.to_nat (n - 1)))) ++
      [py_slice_from l ((n - 1) * sz)])%list.

(** ** [ProgressBar] with its keyword arguments *)




(** ** [_download_status] *)

Definition block_sz : nat := 2 ^ 16.

(** [f.write(buf)] on [file_name], opened with mode ["wb"]. *)
Definition write_final (chunk : bytes) : M unit :=
  w <- get ;;
  set_final (Some (app (match w_final w with Some b => b | None => [] end) chunk)).

(** The [while True] loop of [_download_status]; [fuel] as for
    [read_loop]. *)
Fixpoint download_loop (fuel : nat) (err : option exc) (rem : bytes)
    (progress : progress_bar) (file_size_dl : Z) : M unit :=
  match fuel with
  | O => ret tt
  | S f =>
      match response_read err rem block_sz with
      | Raise e => raise e
      | Ok buf =>
          match buf with
          | [] => ret tt
          | _ =>
              let file_size_dl := (file_size_dl + Z.of_nat (length buf))%Z in
              write_final buf ;;
              progress <- progress_bar_update progress file_size_dl ;;
              download_loop f err (skipn block_sz rem) progress file_size_dl
          end
      end
  end.

(** ['%s' % x] for a string or [None]. *)
Definition py_str_opt (o : option string) : string :=
  match o with Some s => s | None => "None" end.

(** The body of the [with] block once the [Content-Length] header [h] has
    been read. *)
Definition download_body (u : response) (url file_name : string)
    (print_destination : bool) (h : string) : M unit :=
  match parse_int h with
  | None => raise ValueError
  | Some file_size =>
      size_str <- lift (sizeof_fmt (inject_Z file_size)) ;;
      emit (Stdout ("Downloading: " ++ url ++ " (" ++
                    py_str_opt size_str ++ ")")) ;;
      progress <- progress_bar_init 0 (Some file_size) ;;
      download_loop (S (length (r_body u))) (r_err u) (r_body u) progress 0 ;;
      when print_destination
        (emit (Stdout ("File saved as " ++ file_name ++ ".")))
  end.

(** Outcomes of [_download_status]: [meta.getheaders("Content-Length")[0]]
    raises [IndexError] when the header is absent. *)
Inductive download_res :=
| DownloadDone
| DownloadRaise (e : exc)
| DownloadIndexError.

(** [_download_status(url, file_name, print_destination)], with the file
    at [file_name] held in [w_final]. *)
Definition _download_status (E : env) (url file_name : string)
    (print_destination : bool) (w : world) : world * download_res :=
  match try_except (net (UrlOpen url) ;; lift (urlopen E url))
          (fun e => emit (Stdout ("Could not load URL: " ++ url)) ;; raise e) w
  with
  | (w1, Raise e) => (w1, DownloadRaise e)
  | (w1, Ok u) =>
      let '(w2, _) := set_final (Some []) w1 in
      match r_content_length u with
      | None => (w2, DownloadIndexError)
      | Some h =>
          match download_body u url file_name print_destination h w2 with
          | (w3, Ok _) => (w3, DownloadDone)
          | (w3, Raise e) => (w3, DownloadRaise e)
          end
      end
  end.

(** ** Configuration and logging *)

(** Python values passed to and returned by the configuration and logging
    functions: [None], a [bool], an [int], a string, or anything else. *)
Inductive pyval :=
| PNone | PBool (b : bool) | PInt (z : Z) | PStr (s : string) | POther.

(** A file in the file system: a JSON object (the dict [json.load]
    returns, one entry per key) or text that is not valid JSON. *)
Inductive cfg_file :=
| CfgJson (d : list (string * pyval))
| CfgMalformed.

(** The state seen by the configuration and logging code on POSIX
    ([os.name] is not ['nt'], so [HOME] is read and [posixpath] is used):
    [os.environ], the existing directories and files, the warnings issued,
    the messages passed to [logger.info], and the level of the ['mne']
    logger. *)
Record cworld := mkCWorld {
  c_environ : list (string * string);
  c_dirs : list string;
  c_files : list (string * cfg_file);
  c_warnings : list string;
  c_info : list string;
  c_level : pyval
}.

Inductive cexc := CValueError | CKeyError | CTypeError | COSError | CIOError.

Inductive cres (A : Type) :=
| COk (a : A)
| CRaise (e : cexc).
Arguments COk {A} a.
Arguments CRaise {A} e.

Definition CM (A : Type) := cworld -> cworld * cres A.

Definition cret {A} (a : A) : CM A := fun w => (w, COk a).

Definition cbind {A B} (m : CM A) (k : A -> CM B) : CM B :=
  fun w => match m w with
           | (w', COk a) => k a w'
           | (w', CRaise e) => (w', CRaise e)
           end.

Definition craise {A} (e : cexc) : CM A := fun w => (w, CRaise e).

(** [try: m except: h(e)] *)
Definition ctry {A} (m : CM A) (h : cexc -> CM A) : CM A :=
  fun w => match m w with
           | (w', CRaise e) => h e w'
           | r => r
           end.

Notation "x <~ m ;; k" := (cbind m (fun x => k))
  (at level 61, m at next level, right associativity).

Definition cget : CM cworld := fun w => (w, COk w).

Definition cmodify (f : cworld -> cworld) : CM unit := fun w => (f w, COk tt).

Definition cwhen (b : bool) (m : CM unit) : CM unit :=
  if b then m else cret tt.

Definition with_dirs (w : cworld) (ds : list string) : cworld :=
  {| c_environ := c_environ w; c_dirs := ds; c_files := c_files w;
     c_warnings := c_warnings w; c_info := c_info w; c_level := c_level w |}.

Definition with_files (w : cworld) (fs : list (string * cfg_file)) : cworld :=
  {| c_environ := c_environ w; c_dirs := c_dirs w; c_files := fs;
     c_warnings := c_warnings w; c_info := c_info w; c_level := c_level w |}.

Definition with_level (w : cworld) (l : pyval) : cworld :=
  {| c_environ := c_environ w; c_dirs := c_dirs w; c_files := c_files w;
     c_warnings := c_warnings w; c_info := c_info w; c_level := l |}.

(** [warnings.warn(msg)] *)
Definition cwarn (msg : string) : CM unit :=
  cmodify (fun w =>
    {| c_environ := c_environ w; c_dirs := c_dirs w; c_files := c_files w;
       c_warnings := c_warnings w ++ [msg]; c_info := c_info w;
       c_level := c_level w |}).

(** [logger.info(msg)] *)
Definition cinfo (msg : string) : CM unit :=
  cmodify (fun w =>
    {| c_environ := c_environ w; c_dirs := c_dirs w; c_files := c_files w;
       c_warnings := c_warnings w; c_info := c_info w ++ [msg];
       c_level := c_level w |}).

(** Lookup in a dict with string keys: [d.get(k)]. *)
Fixpoint assoc {B} (k : string) (d : list (string * B)) : option B :=
  match d with
  | [] => None
  | (k', v) :: d' => if String.eqb k k' then Some v else assoc k d'
  end.

(** [d[k] = v]: an existing key keeps its place, a new one goes last. *)
Fixpoint dict_set {B} (k : string) (v : B) (d : list (string * B))
    : list (string * B) :=
  match d with
  | [] => [(k, v)]
  | (k', v') :: d' =>
      if String.eqb k k' then (k', v) :: d' else (k', v') :: dict_set k v d'
  end.

(** [d.pop(k, None)] *)
Definition dict_pop {B} (k : string) (d : list (string * B))
    : list (string * B) :=
  filter (fun kv => negb (String.eqb k (fst kv))) d.

Definition dquote : string := String (ascii_of_nat 34) EmptyString.

(** [p[:p.rfind('/') + 1]], computed on the reversed string: everything
    from the first ['/'] on. *)
Fixpoint drop_to_slash (r : string) : string :=
  match r with
  | EmptyString => EmptyString
  | String c r' => if ascii_dec c "/" then r else drop_to_slash r' end.

Fixpoint lstrip_slash (s : string) : string :=
  match s with
  | EmptyString => EmptyString
  | String c r => if ascii_dec c "/" then lstrip_slash r else s
  end.

Fixpoint all_slashes (s : string) : bool :=
  match s with
  | EmptyString => true
  | String c r => if ascii_dec c "/" then all_slashes r else false
  end.

(** [os.path.split(p)[0]] ([posixpath.split]): the part up to the last
    ['/'], with its trailing slashes removed unless it consists of slashes
    only. *)
Definition path_split_head (p : string) : string :=
  let head := rev_string (drop_to_slash (rev_string p EmptyString)) EmptyString in
  if negb (String.eqb head EmptyString) && negb (all_slashes head)
  then rev_string (lstrip_slash (rev_string head EmptyString)) EmptyString
  else head.

Definition is_dir (w : cworld) (d : string) : bool :=
  existsb (String.eqb d) (c_dirs w).

(** [os.mkdir(d)]: [OSError] when [d] exists or its parent directory does
    not (the empty parent is the current directory). *)
Definition os_mkdir (d : string) : CM unit :=
  w <~ cget ;;
  if is_dir w d || is_some (assoc d (c_files w)) then craise COSError
  else
    let parent := path_split_head d in
    if String.eqb parent EmptyString || is_dir w parent
    then cmodify (fun w => with_dirs w (d :: c_dirs w))
    else craise COSError.

(** [with open(p, 'w') as fid: json.dump(d, fid, ...)]: [IOError] when
    [p] is a directory. *)
Definition write_json (p : string) (d : list (string * pyval)) : CM unit :=
  w <~ cget ;;
  if is_dir w p then craise CIOError
  else cmodify (fun w => with_files w (dict_set p (CfgJson d) (c_files w))).

(** [get_config_path()] *)
Definition get_config_path : CM string :=
  w <~ cget ;;
  match assoc "HOME" (c_environ w) with
  | None => craise CValueError
  | Some v => cret (path_join (path_join v ".mne") "mne-python.json")
  end.

(** The path [get_config_path] gives for the home directory [h]. *)
Definition config_path_of (h : string) : string :=
  path_join (path_join h ".mne") "mne-python.json".

Definition known_config_types : list string :=
  ["MNE_BROWSE_RAW_SIZE"; "MNE_CUDA_IGNORE_PRECISION";
   "MNE_DATASETS_MEGSIM_PATH"; "MNE_DATASETS_SAMPLE_PATH";
   "MNE_LOGGING_LEVEL"; "MNE_USE_CUDA"; "SUBJECTS_DIR"].

Definition known_config_wildcards : list string := ["MNE_STIM_CHANNEL"].

(** [k in key] for strings: [k] is a substring of [key]. *)
Fixpoint str_contains (k key : string) : bool :=
  String.prefix k key ||
  match key with
  | EmptyString => false
  | String _ r => str_contains k r
  end.

Definition known_key (key : string) : bool :=
  existsb (String.eqb key) known_config_types ||
  existsb (fun k => str_contains k key) known_config_wildcards.

(** [get_config(key, default, raise_error)]; the [KeyError] message is
    left out. *)
Definition get_config (key default : pyval) (raise_error : bool) : CM pyval :=
  match key with
  | PStr k =>
      w <~ cget ;;
      match assoc k (c_environ w) with
      | Some v => cret (PStr v)
      | None =>
          config_path <~ get_config_path ;;
          w <~ cget ;;
          r <~ (match assoc config_path (c_files w) with
                | None => cret (false, default)
                | Some CfgMalformed => craise CValueError
                | Some (CfgJson config) =>
                    cret (match assoc k config with
                          | Some v => (true, v)
                          | None => (false, default)
                          end)
                end) ;;
          let '(key_found, val) := r in
          if negb key_found && raise_error then craise CKeyError else cret val
      end
  | _ => craise CValueError
  end.

(** [set_config(key, value)] *)
Definition set_config (key value : pyval) : CM unit :=
  match key, value with
  | PStr k, (PStr _ | PNone) =>
      _ <~ cwhen (negb (known_key k))
             (cwarn ("Setting non-standard config type: " ++
                     dquote ++ k ++ dquote)) ;;
      config_path <~ get_config_path ;;
      w <~ cget ;;
      config <~ (match assoc config_path (c_files w) with
                 | Some (CfgJson config) => cret config
                 | Some CfgMalformed => craise CValueError
                 | None =>
                     _ <~ cinfo ("Attempting to create new mne-python " ++
                                 "configuration file:" ++ newline ++
                                 config_path) ;;
                     cret []
                 end) ;;
      let config := match value with
                    | PStr v => dict_set k (PStr v) config
                    | _ => dict_pop k config
                    end in
      let directory := path_split_head config_path in
      w <~ cget ;;
      _ <~ cwhen (negb (is_dir w directory)) (os_mkdir directory) ;;
      write_json config_path config
  | PStr _, _ => craise CValueError
  | _, _ => craise CValueError
  end.

(** [get_subjects_dir(subjects_dir, raise_error)] *)
Definition get_subjects_dir (subjects_dir : pyval) (raise_error : bool)
    : CM pyval :=
  match subjects_dir with
  | PNone => get_config (PStr "SUBJECTS_DIR") PNone raise_error
  | v => cret v
  end.

(** [str.upper()] on ASCII text. *)
Definition ascii_upper (c : ascii) : ascii :=
  let n := nat_of_ascii c in
  if (97 <=? n)%nat && (n <=? 122)%nat then ascii_of_nat (n - 32) else c.

Fixpoint str_upper (s : string) : string :=
  match s with
  | EmptyString => EmptyString
  | String c r => String (ascii_upper c) (str_upper r)
  end.

Definition logging_types : list (string * Z) :=
  [("DEBUG", 10%Z); ("INFO", 20%Z); ("WARNING", 30%Z); ("ERROR", 40%Z);
   ("CRITICAL", 50%Z)].

(** [logger.setLevel(level)] in Python 2.7: [logging._checkLevel] accepts
    an [int] (a [bool] is one) and raises [TypeError] on anything but a
    string, and strings never reach it here. *)
Definition setLevel (level : pyval) : CM unit :=
  match level with
  | PInt _ | PBool _ => cmodify (fun w => with_level w level)
  | _ => craise CTypeError
  end.

(** [set_log_level(verbose, return_old_level)] *)
Definition set_log_level (verbose : pyval) (return_old_level : bool)
    : CM pyval :=
  verbose <~ (match verbose with
              | PNone => get_config (PStr "MNE_LOGGING_LEVEL") (PStr "INFO") false
              | PBool true => cret (PStr "INFO")
              | PBool false => cret (PStr "WARNING")
              | v => cret v
              end) ;;
  verbose <~ (match verbose with
              | PStr s =>
                  match assoc (str_upper s) logging_types with
                  | None => craise CValueError
                  | Some n => cret (PInt n)
                  end
              | v => cret v
              end) ;;
  w <~ cget ;;
  let old_verbose := c_level w in
  _ <~ setLevel verbose ;;
  cret (if return_old_level then old_verbose else PNone).

(** A function decorated with [@verbose], called with the keyword
    argument [verbose] given ([Some]) or not ([None]); [default_level] is
    [getattr(self, 'verbose', None)] for a method and [None] otherwise. *)
Definition verbose_dec {A} (default_level : pyval) (kw_verbose : option pyval)
    (function : CM A) : CM A :=
  let verbose_level := match kw_verbose with
                       | Some v => v
                       | None => default_level
                       end in
  match verbose_level with
  | PNone => function
  | _ =>
      old_level <~ set_log_level verbose_level true ;;
      ret <~ ctry function
               (fun e => _ <~ set_log_level old_level false ;; craise e) ;;
      _ <~ set_log_level old_level false ;;
      cret ret
  end.

(** ** [_check_fname], [_check_subject], [_check_pandas_index_arguments] *)

(** Python truth value; an object of another type counts as true, as
    objects without [__len__] or [__nonzero__] do. *)
Definition truthy (v : pyval) : bool :=
  match v with
  | PNone => false
  | PBool b => b
  | PInt z => negb (z =? 0)%Z
  | PStr s => negb (String.eqb s EmptyString)
  | POther => true
  end.

(** [op.isfile(fname)]: [fname] is a regular file. *)
Definition is_file (w : cworld) (f : string) : bool :=
  match assoc f (c_files w) with Some _ => true | None => false end.

(** [_check_fname(fname, overwrite)] *)
Definition _check_fname (fname overwrite : pyval) : CM unit :=
  match fname with
  | PStr f =>
      w <~ cget ;;
      if is_file w f then
        if negb (truthy overwrite) then craise CIOError
        else cinfo "Overwriting existing file."
      else cret tt
  | _ => craise CTypeError
  end.

(** [_check_subject(class_subject, input_subject, raise_error)];
    [raise_error is True] holds for the [True] object only. *)
Definition _check_subject (class_subject input_subject raise_error : pyval)
    : cres pyval :=
  match input_subject with
  | PNone =>
      match class_subject with
      | PNone =>
          match raise_error with
          | PBool true => CRaise CValueError
          | _ => COk PNone
          end
      | PStr s => COk (PStr s)
      | _ => CRaise CValueError
      end
  | PStr s => COk (PStr s)
  | _ => CRaise CValueError
  end.

(** Index values and defaults are column names ([Some]) or [None]. *)
Definition opt_str_eqb (a b : option string) : bool :=
  match a, b with
  | None, None => true
  | Some x, Some y => String.eqb x y
  | _, _ => false
  end.

(** [index] is a list or tuple ([inl]) or a single value ([inr]). *)
Definition index_list (index : list (option string) + option string)
    : list (option string) :=
  match index with
  | inl l => l
  | inr v => [v]
  end.

(** [', '.join(l)]: [None] ([TypeError]) when an element is not a string. *)
Fixpoint join_strs (sep : string) (l : list (option string)) : option string :=
  match l with
  | [] => Some EmptyString
  | [Some x] => Some x
  | Some x :: r =>
      match join_strs sep r with
      | Some y => Some (x ++ sep ++ y)
      | None => None
      end
  | None :: _ => None
  end.

(** [_check_pandas_index_arguments(index, defaults)]; the message is left
    out, but building it can raise [TypeError]. *)
Definition _check_pandas_index_arguments
    (index : list (option string) + option string)
    (defaults : list (option string)) : cres unit :=
  let index := index_list index in
  let invalid_choices :=
    filter (fun e => negb (existsb (opt_str_eqb e) defaults)) index in
  match invalid_choices with
  | [] => COk tt
  | _ =>
      match join_strs ", " invalid_choices, join_strs ", " defaults with
      | Some _, Some _ => CRaise CValueError
      | _, _ => CRaise CTypeError
      end
  end.

(** ** Concrete environments *)

Definition body3 : bytes := [Byte.x61; Byte.x62; Byte.x63].

(** A response carrying [body3] with the given [Content-Length] header. *)
Definition test_response (cl : option string) : response :=
  {| r_content_length := cl; r_body := body3; r_err := None |}.

(** An FTP server that delivers [body3] after the restart, failing at login
    or at the restart as given. *)
Definition test_server (login rest : option exc) : ftp_server :=
  {| ftp_login_err := login; ftp_rest_err := rest; ftp_retr := body3;
     ftp_retr_err := None |}.

Definition test_env (cl : option string) (login rest : option exc) : env :=
  {| urlopen := fun _ => Ok (test_response cl);
     ftp_session := fun _ => test_server login rest |}.

(** No data directory and no files yet. *)
Definition fresh_world : world := mkWorld false None None [] [].

(** A one-byte partial download in the temp file. *)
Definition partial_world : world := mkWorld true None (Some [Byte.x00]) [] [].

(** The temp file just opened for writing. *)
Definition open_temp_world : world := mkWorld true None (Some []) [] [].

(** ** Unit table for comparison with [sizeof_fmt] *)




(** * Properties *)

(** ** Evaluations of [sizeof_fmt] *)

Example sizeof_fmt_2000 : sizeof_fmt 2000 = Ok (Some "2 kB").
Proof. vm_compute. reflexivity. Qed.

Example sizeof_fmt_GB : sizeof_fmt 1234567890 = Ok (Some "1.15 GB").
Proof. vm_compute. reflexivity. Qed.

(** ** Frame lemmas for the read loop and [_chunk_read_] *)

Lemma emit_eq ev w :
  emit ev w = ({| w_dir := w_dir w; w_final := w_final w; w_temp := w_temp w;
                  w_out := w_out w ++ [ev]; w_net := w_net w |}, Ok tt).
Proof. reflexivity. Qed.

Lemma response_read_nil_chunk err rem cs :
  (0 < cs)%nat -> response_read err rem cs = Ok [] -> rem = [] /\ err = None.
Proof.
  intros Hcs H. destruct rem as [|x rem'], err; simpl in H; try discriminate.
  - split; reflexivity.
  - destruct cs; [lia|discriminate].
  - destruct cs; [lia|discriminate].
Qed.

Lemma response_read_ok err rem cs ch :
  response_read err rem cs = Ok ch -> ch = firstn cs rem.
Proof. destruct rem, err; simpl; intros H; inversion H; reflexivity. Qed.

Lemma bind_inv {A B} (m : M A) (k : A -> M B) w w' r :
  bind m k w = (w', r) ->
  exists w1 r1, m w = (w1, r1) /\
    match r1 with
    | Ok a => k a w1 = (w', r)
    | Raise e => w' = w1 /\ r = Raise e
    end.
Proof.
  unfold bind. destruct (m w) as [w1 [a|e]]; intros H; exists w1.
  - exists (Ok a). auto.
  - exists (Raise e). inversion H; auto.
Qed.

Lemma bind_ok_inv {A B} (m : M A) (k : A -> M B) w w' x :
  bind m k w = (w', Ok x) -> exists a w1, m w = (w1, Ok a) /\ k a w1 = (w', Ok x).
Proof.
  unfold bind. destruct (m w) as [w1 [a|e]]; intros H; [eauto|discriminate].
Qed.

Lemma progress_step_frame (rh : bool) p v w w2 r2 :
  (if rh then
     match p with
     | Some p => p' <- progress_bar_update p v ;; ret (Some p')
     | None => ret p
     end
   else ret p) w = (w2, r2) ->
  w_final w2 = w_final w /\ w_dir w2 = w_dir w /\ w_net w2 = w_net w /\
  w_temp w2 = w_temp w.
Proof.
  destruct rh, p as [q|]; simpl; intros H; try (inversion H; subst; auto; fail).
  unfold progress_bar_update, bind, ret, raise in H.
  destruct (pb_max_value q =? 0)%Z; inversion H; subst; auto.
Qed.

Lemma read_loop_frame fuel err rem cs rh p acc w w' r old :
  read_loop fuel err rem cs rh p acc w = (w', r) ->
  w_temp w = Some old ->
  w_final w' = w_final w /\ w_dir w' = w_dir w /\ w_net w' = w_net w /\
  (exists written, w_temp w' = Some (old ++ written)%list /\
     (r = Ok tt -> (length rem < fuel)%nat -> (0 < cs)%nat ->
      written = rem /\ err = None)).
Proof.
  revert rem p acc w old.
  induction fuel as [|f IH]; intros rem p acc w old Hrun Hold; simpl in Hrun.
  - inversion Hrun; subst. repeat split; auto.
    exists []. rewrite app_nil_r. split; [assumption|]. intros _ H. lia.
  - destruct (response_read err rem cs) as [chunk|e] eqn:Hrd.
    + destruct chunk as [|c cs'] eqn:Hc.
      * destruct rh; simpl in Hrun; inversion Hrun; subst; simpl;
          (repeat split; auto; exists []; rewrite app_nil_r; split; [assumption|];
           intros _ _ Hcs; apply response_read_nil_chunk in Hrd; [|assumption];
           destruct Hrd; subst; auto).
      * apply response_read_ok in Hrd.
        apply bind_inv in Hrun as (w1 & r1 & Hw & Hk).
        unfold write_temp, bind, get, set_temp in Hw. rewrite Hold in Hw.
        inversion Hw; subst w1 r1; clear Hw.
        apply bind_inv in Hk as (w2 & r2 & Hp & Hk).
        apply progress_step_frame in Hp as Hfr; simpl in Hfr.
        destruct Hfr as (Hf2 & Hd2 & Hn2 & Ht2).
        destruct r2 as [pr|e].
        -- eapply IH in Hk; [|exact Ht2].
           destruct Hk as (Hf & Hd & Hn & written & Ht & Hok).
           rewrite Hf, Hd, Hn, Hf2, Hd2, Hn2. repeat split; auto.
           exists (c :: cs' ++ written)%list. split.
           ++ rewrite Ht. rewrite <- app_assoc. reflexivity.
           ++ intros Hr Hlen Hcs. subst r.
              assert (Hlt : (length (skipn cs rem) < f)%nat).
              { rewrite length_skipn.
                destruct rem; simpl in Hrd; [destruct cs; discriminate|].
                simpl in Hlen |- *. destruct cs; lia. }
              destruct (Hok eq_refl Hlt Hcs) as [Hw Her]. split; [|exact Her].
              rewrite Hw. change ((c :: cs') ++ skipn cs rem = rem)%list.
              rewrite Hrd. apply firstn_skipn.
        -- destruct Hk as [Hw Hr]; subst w2 r.
           rewrite Hf2, Hd2, Hn2. repeat split; auto.
           exists (c :: cs'). split; [exact Ht2|discriminate].
    + inversion Hrun; subst. repeat split; auto.
      exists []. rewrite app_nil_r. split; [assumption|]. discriminate.
Qed.

(** Programs that only write output: the files, the directory and the
    network trace are left as they are. *)
Definition files_net_eq (w1 w2 : world) : Prop :=
  w_dir w2 = w_dir w1 /\ w_final w2 = w_final w1 /\
  w_temp w2 = w_temp w1 /\ w_net w2 = w_net w1.

Definition out_only {A} (m : M A) : Prop :=
  forall w w' r, m w = (w', r) -> files_net_eq w w'.

Lemma out_only_ret {A} (a : A) : out_only (ret a).
Proof. intros w w' r H; inversion H; subst; repeat split. Qed.

Lemma out_only_raise {A} e : out_only (A := A) (raise e).
Proof. intros w w' r H; inversion H; subst; repeat split. Qed.

Lemma out_only_emit ev : out_only (emit ev).
Proof. intros w w' r H; inversion H; subst; repeat split. Qed.

Lemma out_only_when b m : out_only m -> out_only (when b m).
Proof. destruct b; simpl; auto using out_only_ret. Qed.

Lemma out_only_bind {A B} (m : M A) (k : A -> M B) :
  out_only m -> (forall a, out_only (k a)) -> out_only (bind m k).
Proof.
  intros Hm Hk w w' r H. apply bind_inv in H as (w1 & r1 & H1 & H).
  apply Hm in H1. destruct r1 as [a|e].
  - apply Hk in H. unfold files_net_eq in *. intuition congruence.
  - destruct H; subst; assumption.
Qed.

Lemma out_only_progress_bar_update p v : out_only (progress_bar_update p v).
Proof.
  unfold progress_bar_update. destruct (pb_max_value p =? 0)%Z.
  - apply out_only_raise.
  - apply out_only_bind; [apply out_only_emit|intros; apply out_only_ret].
Qed.

Lemma out_only_progress_bar_init v m : out_only (progress_bar_init v m).
Proof. destruct m; [apply out_only_ret|apply out_only_raise]. Qed.

Create HintDb outonly.
#[export] Hint Resolve out_only_ret out_only_raise out_only_emit out_only_when
  out_only_progress_bar_update out_only_progress_bar_init : outonly.

Ltac out_only_solve :=
  repeat (match goal with
          | |- out_only (bind _ _) => apply out_only_bind; [|intro]
          | |- out_only (match ?x with _ => _ end) => destruct x
          | |- out_only (if ?b then _ else _) => destruct b
          | |- out_only (when _ _) => apply out_only_when
          end; auto with outonly).

Ltac split3 := split; [|split; [|split]].

Ltac frame_of H :=
  lazymatch type of H with
  | ?m ?w0 = _ =>
      let O := fresh "O" in
      assert (O : out_only m) by out_only_solve; exact (O _ _ _ H)
  end.

Lemma chunk_read_frame resp cs rh init ts v w w' r old :
  _chunk_read_ resp cs rh init ts v w = (w', r) ->
  w_temp w = Some old ->
  w_final w' = w_final w /\ w_dir w' = w_dir w /\ w_net w' = w_net w /\
  (exists written, w_temp w' = Some (old ++ written)%list /\
     (forall x, r = Ok x -> (0 < cs)%nat ->
      x = PyNone /\ written = r_body resp /\ r_err resp = None)).
Proof.
  unfold _chunk_read_. intros H Hold. unfold bytes in *.
  apply bind_inv in H as (w1 & r1 & H1 & H).
  assert (F1 : files_net_eq w w1) by frame_of H1.
  destruct r1 as [s|e];
    [|destruct H; subst; destruct F1 as (?&?&?&?); split3; auto;
      exists []; rewrite app_nil_r; split; [congruence|discriminate]].
  apply bind_inv in H as (w2 & r2 & H2 & H).
  assert (F2 : files_net_eq w1 w2) by frame_of H2.
  destruct r2 as [t|e];
    [|destruct H; subst; destruct F1 as (?&?&?&?), F2 as (?&?&?&?);
      split3; try congruence;
      exists []; rewrite app_nil_r; split; [congruence|discriminate]].
  apply bind_inv in H as (w3 & r3 & H3 & H).
  assert (F3 : files_net_eq w2 w3) by frame_of H3.
  destruct F1 as (D1&Fi1&T1&N1), F2 as (D2&Fi2&T2&N2), F3 as (D3&Fi3&T3&N3).
  destruct r3 as [pr|e];
    [|destruct H; subst; split3; try congruence;
      exists []; rewrite app_nil_r; split; [congruence|discriminate]].
  apply bind_inv in H as (w4 & r4 & H4 & H).
  eapply read_loop_frame with (old := old) in H4; [|unfold bytes in *; congruence].
  destruct H4 as (Fi4 & D4 & N4 & written & T4 & Hok).
  destruct r4 as [u|e].
  - inversion H; subst w' r. split3; try congruence.
    exists written. split; [assumption|]. intros x Hx Hcs. inversion Hx; subst.
    destruct u. destruct (Hok eq_refl (Nat.lt_succ_diag_r _) Hcs). auto.
  - destruct H; subst. split3; try congruence.
    exists written. split; [assumption|discriminate].
Qed.

(** ** The branches of [_fetch_file] *)

Definition is_ftp_cmd (o : netop) : Prop := exists c, o = FtpCmd c.

Lemma full_download_spec E url verbose w w' r :
  full_download E url verbose w = (w', r) ->
  w_final w' = w_final w /\ w_dir w' = w_dir w /\
  w_net w' = (w_net w ++ [UrlOpen url])%list /\
  (forall x, r = Ok x ->
   x = None /\ exists resp, urlopen E url = Ok resp /\
                            w_temp w' = Some (r_body resp)).
Proof.
  unfold full_download. intros H.
  apply bind_inv in H as (w1 & r1 & H1 & H). inversion H1; subst; clear H1.
  apply bind_inv in H as (w2 & r2 & H2 & H). unfold lift in H2.
  inversion H2; subst; clear H2.
  destruct (urlopen E url) as [resp|e] eqn:Hu;
    [|destruct H; subst; simpl; split3; auto; discriminate].
  apply bind_inv in H as (w3 & r3 & H3 & H). inversion H3; subst; clear H3.
  apply bind_inv in H as (w4 & r4 & H4 & H).
  eapply chunk_read_frame with (old := []) in H4; [|reflexivity].
  destruct H4 as (Fi4 & D4 & N4 & written & T4 & Hok). simpl in *.
  destruct r4 as [u|e].
  - inversion H; subst. split3; auto. intros x Hx. inversion Hx; subst.
    split; [reflexivity|]. exists resp. split; [reflexivity|].
    destruct (Hok u eq_refl ltac:(apply Nat.ltb_lt; reflexivity)) as (_ & Hw & _). subst. exact T4.
  - destruct H; subst. split3; auto. discriminate.
Qed.

Lemma resume_download_spec E url fn sz fb w w' r old :
  ftplib_errors_only E ->
  w_temp w = Some old ->
  resume_download E url fn sz fb w = (w', r) ->
  w_final w' = w_final w /\ w_dir w' = w_dir w /\
  (exists ops, w_net w' = (w_net w ++ FtpConnect url :: ops)%list /\
               Forall is_ftp_cmd ops) /\
  (exists lines, w_out w' = (w_out w ++ map Stdout lines)%list) /\
  (forall x, r = Ok x ->
   x = None /\ w_temp w' = Some (old ++ ftp_retr (ftp_session E url))%list) /\
  (forall e, r = Raise e -> ftplib_error e).
Proof.
  intros HE Hold H. destruct (HE url) as (Hl & Hr & Ht).
  destruct w as [d fi te o n]; simpl in Hold; subst te.
  unfold resume_download in H. cbv zeta in H.
  destruct (ftp_login_err (ftp_session E url)) as [e|] eqn:El.
  { cbn in H. inversion H; subst. simpl.
    split3; [reflexivity|reflexivity| |split].
    - exists []. split; [reflexivity|constructor].
    - exists []. rewrite app_nil_r. reflexivity.
    - split; [discriminate|]. intros e' He'. inversion He'; subst. auto. }
  destruct (ftp_rest_err (ftp_session E url)) as [e|] eqn:Er.
  { specialize (Hr e eq_refl).
    destruct Hr as [-> | ->];
    cbn in H; cbv [raise] in H; inversion H; subst; simpl;
    (split3; [reflexivity|reflexivity| |split];
     [ eexists; split; [rewrite <- !app_assoc; simpl; reflexivity|repeat constructor; eexists; reflexivity]
     | exists []; rewrite app_nil_r; reflexivity
     | split; [discriminate|]; intros e' He'; inversion He'; subst; red; auto ]). }
  destruct (ftp_retr_err (ftp_session E url)) as [e|] eqn:Et.
  { specialize (Ht e eq_refl).
    destruct Ht as [-> | ->];
    cbn in H; cbv [raise] in H; inversion H; subst; simpl;
    (split3; [reflexivity|reflexivity| |split];
     [ eexists; split; [rewrite <- !app_assoc; simpl; reflexivity|repeat constructor; eexists; reflexivity]
     | exists [fn]; reflexivity
     | split; [discriminate|]; intros e' He'; inversion He'; subst; red; auto ]). }
  cbn in H; inversion H; subst; simpl.
  split3; [reflexivity|reflexivity| |split].
  - eexists; split; [rewrite <- !app_assoc; simpl; reflexivity|repeat constructor; eexists; reflexivity].
  - exists [fn]; reflexivity.
  - split; [|discriminate]. intros x Hx; inversion Hx; subst; auto.
Qed.

Lemma fetch_error_handler_spec fn url v e w w' r :
  fetch_error_handler fn url v e w = (w', r) ->
  files_net_eq w w' /\ r = Raise e.
Proof.
  intros H. unfold fetch_error_handler in H. split.
  - frame_of H.
  -
    destruct e; try (inversion H; reflexivity);
      destruct (0 <? v)%Z; inversion H; reflexivity.
Qed.

(** The bytes a completed transfer leaves in the temp file: the body of
    the HTTP response, or the partial file followed by what the FTP server
    sent after the restart. *)
Definition transferred (E : env) (url : string) (temp0 : option bytes)
    (b : bytes) : Prop :=
  (exists resp, urlopen E url = Ok resp /\ b = r_body resp) \/
  (exists old, temp0 = Some old /\ b = (old ++ ftp_retr (ftp_session E url))%list).

Lemma fetch_try_block_spec E url fn resume v fb W W' rb :
  ftplib_errors_only E ->
  w_final W = None ->
  fetch_try_block E url fn resume v fb W = (W', rb) ->
  (rb = Ok None /\
   exists b, w_final W' = Some b /\ transferred E url (w_temp W) b) \/
  (w_final W' = None /\ exists e, rb = Raise e).
Proof.
  intros HE Hfin H. unfold fetch_try_block in H.
  apply bind_inv in H as (W1 & r1 & H1 & H). inversion H1; subst W1 r1; clear H1.
  apply bind_inv in H as (W2 & r2 & H2 & H). inversion H2; subst W2 r2; clear H2.
  apply bind_inv in H as (W3 & r3 & H3 & H). simpl in H3.
  destruct resume, (w_temp W) as [old|] eqn:Ht; simpl in H3.
  - eapply resume_download_spec with (old := old) in H3; [|exact HE|reflexivity].
    destruct H3 as (Fi3 & _ & _ & _ & Hok & Herr). simpl in Fi3.
    destruct r3 as [x|e].
    + destruct (Hok x eq_refl) as [-> T3].
      apply bind_inv in H as (W4 & r4 & H4 & H).
      unfold move_temp_to_final, bind, get in H4. rewrite T3 in H4.
      inversion H4; subst W4 r4; clear H4.
      inversion H; subst. left. split; [reflexivity|].
      eexists. split; [reflexivity|]. right. exists old. auto.
    + destruct H; subst. right. split; [congruence|eauto].
  - (* resume with no temp file is the full download, covered below *)
    apply full_download_spec in H3. destruct H3 as (Fi3 & _ & _ & Hok). simpl in Fi3.
    destruct r3 as [x|e].
    + destruct (Hok x eq_refl) as [-> (resp & Hu & T3)].
      apply bind_inv in H as (W4 & r4 & H4 & H).
      unfold move_temp_to_final, bind, get in H4. rewrite T3 in H4.
      inversion H4; subst W4 r4; clear H4.
      inversion H; subst. left. split; [reflexivity|].
      eexists. split; [reflexivity|]. left. exists resp. auto.
    + destruct H; subst. right. split; [congruence|eauto].
  - apply full_download_spec in H3. destruct H3 as (Fi3 & _ & _ & Hok). simpl in Fi3.
    destruct r3 as [x|e].
    + destruct (Hok x eq_refl) as [-> (resp & Hu & T3)].
      apply bind_inv in H as (W4 & r4 & H4 & H).
      unfold move_temp_to_final, bind, get in H4. rewrite T3 in H4.
      inversion H4; subst W4 r4; clear H4.
      inversion H; subst. left. split; [reflexivity|].
      eexists. split; [reflexivity|]. left. exists resp. auto.
    + destruct H; subst. right. split; [congruence|eauto].
  - apply full_download_spec in H3. destruct H3 as (Fi3 & _ & _ & Hok). simpl in Fi3.
    destruct r3 as [x|e].
    + destruct (Hok x eq_refl) as [-> (resp & Hu & T3)].
      apply bind_inv in H as (W4 & r4 & H4 & H).
      unfold move_temp_to_final, bind, get in H4. rewrite T3 in H4.
      inversion H4; subst W4 r4; clear H4.
      inversion H; subst. left. split; [reflexivity|].
      eexists. split; [reflexivity|]. left. exists resp. auto.
    + destruct H; subst. right. split; [congruence|eauto].
Qed.

(** Every run of [_fetch_file] that does not return early either fails
    with no file at [full_name], or installs the completely transferred
    bytes at [full_name] and then returns [full_name] (no checksum) or
    raises [NameError] at the lookup of [_md5_sum_file]. *)
Lemma fetch_outcome E url dir resume overwrite md5sum verbose w w' r :
  ftplib_errors_only E ->
  (w_final w = None \/ overwrite = true) ->
  _fetch_file E url dir resume overwrite md5sum verbose w = (w', r) ->
  (w_final w' = None /\ exists e, r = Raise e) \/
  (exists b, w_final w' = Some b /\
     transferred E url (if overwrite then None else w_temp w) b /\
     match md5sum with
     | None => r = Ok (path_join dir (basename url))
     | Some _ => r = Raise NameError
     end).
Proof.
  intros HE Hpre H.
  destruct w as [d fi te o n]; simpl in Hpre |- *.
  unfold _fetch_file in H.
  destruct d, fi as [fb0|], overwrite, te as [tb0|]; try (destruct Hpre; discriminate);
  cbn -[try_except fetch_try_block fetch_error_handler md5_sum_file basename
        path_join] in H;
  apply bind_inv in H as (W1 & r1 & H1 & H);
  unfold try_except in H1;
  match type of H1 with
  | match ?t with _ => _ end = _ => destruct t as [Wb rb] eqn:Hb
  end;
  (apply fetch_try_block_spec in Hb; [|exact HE|reflexivity]);
  (destruct Hb as [[-> (b & Fb & Tb)] | [Fb (e & ->)]];
   [ inversion H1; subst W1 r1; clear H1; right; exists b;
     destruct md5sum as [dg|]; cbn in H;
     [ unfold md5_sum_file, bind, raise in H; cbn in H; inversion H; subst;
       (split; [exact Fb|split; [exact Tb|reflexivity]])
     | inversion H; subst; (split; [exact Fb|split; [exact Tb|reflexivity]]) ]
   | apply fetch_error_handler_spec in H1; destruct H1 as [(_ & F1 & _) ->];
     inversion H; subst; left; split; [congruence|eauto] ]).
Qed.

(** ** The progress trace of the read loop *)





(** ** Successful runs of [_fetch_file] *)

Lemma try_except_inv {A} (m : M A) h w w' r :
  try_except m h w = (w', r) ->
  exists w1 r1, m w = (w1, r1) /\
    match r1 with
    | Ok a => w' = w1 /\ r = Ok a
    | Raise e => h e w1 = (w', r)
    end.
Proof.
  unfold try_except. destruct (m w) as [w1 [a|e]]; intros H; exists w1.
  - exists (Ok a). inversion H; auto.
  - exists (Raise e). auto.
Qed.

(** The resume branch returns a path only through the fallback call. *)
Lemma resume_download_some E url fn sz fb w w' p :
  resume_download E url fn sz fb w = (w', Ok (Some p)) ->
  exists w1, fb w1 = (w', Ok p).
Proof.
  unfold resume_download. cbv zeta. intros H.
  apply bind_inv in H as (w1 & r1 & H1 & H). inversion H1; subst; clear H1.
  apply bind_inv in H as (w2 & r2 & H2 & H).
  destruct r2 as [[]|e]; [|destruct H; discriminate].
  apply try_except_inv in H as (w3 & r3 & H3 & H).
  destruct r3 as [a|e].
  - destruct H as [_ Ha]. inversion Ha; subst a.
    destruct (ftp_rest_err (ftp_session E url)), (ftp_retr_err (ftp_session E url));
      cbn in H3; inversion H3.
  - destruct e; cbn in H; try (inversion H; fail).
    unfold bind, ret in H.
    destruct (fb w3) as [w4 [p'|e]] eqn:Hfb; inversion H; subst. eauto.
Qed.

(** The [try] block of [_fetch_file] either returned the fallback's path,
    or ran to its end after installing a file at [full_name]. *)
Lemma fetch_try_block_ok E url fn resume v fb w w' x :
  fetch_try_block E url fn resume v fb w = (w', Ok x) ->
  match x with
  | Some p => exists w1, fb w1 = (w', Ok p)
  | None => exists b, w_final w' = Some b
  end.
Proof.
  unfold fetch_try_block. intros H.
  apply bind_inv in H as (w1 & r1 & H1 & H). inversion H1; subst; clear H1.
  apply bind_inv in H as (w2 & r2 & H2 & H). inversion H2; subst; clear H2.
  apply bind_inv in H as (w3 & r3 & H3 & H).
  destruct r3 as [[p'|]|e]; [| |destruct H; discriminate].
  - inversion H; subst.
    destruct (resume && is_some (w_temp _)) eqn:Hb.
    + eapply resume_download_some. exact H3.
    + apply full_download_spec in H3. destruct H3 as (_ & _ & _ & Hok).
      destruct (Hok _ eq_refl) as [Hn _]. discriminate.
  - unfold move_temp_to_final, bind, get in H.
    destruct (w_temp w3) as [b|]; cbn in H; inversion H; subst. simpl. eauto.
Qed.

(** Whenever [_fetch_file] returns a path, it is [full_name], and a file
    is present there. *)
Lemma fetch_ok_final fuel E url dir resume overwrite md5sum v w w' p :
  fetch_file_fuel fuel E url dir resume overwrite md5sum v w = (w', Ok p) ->
  p = path_join dir (basename url) /\ exists b, w_final w' = Some b.
Proof.
  revert resume overwrite md5sum v w w' p.
  induction fuel as [|f IH]; intros resume overwrite md5sum v w w' p H;
    [discriminate|].
  cbn [fetch_file_fuel] in H. cbv zeta in H.
  apply bind_inv in H as (w1 & r1 & H1 & H). inversion H1; subst; clear H1.
  apply bind_inv in H as (w2 & r2 & H2 & H).
  destruct r2 as [[]|e]; [|destruct H; discriminate].
  apply bind_inv in H as (w3 & r3 & H3 & H). injection H3 as <- <-.
  destruct (is_some (w_final w2) && negb overwrite) eqn:Hs.
  - inversion H; subst. split; [reflexivity|].
    apply andb_prop in Hs as [Hs _].
    destruct (w_final w') as [b|]; [eauto|discriminate].
  - apply bind_inv in H as (w4 & r4 & H4 & H).
    destruct r4 as [[]|e]; [|destruct H; discriminate].
    apply bind_inv in H as (w5 & r5 & H5 & H). injection H5 as <- <-.
    apply bind_inv in H as (w6 & r6 & H6 & H).
    destruct r6 as [[]|e]; [|destruct H; discriminate].
    apply bind_inv in H as (w7 & r7 & H7 & H).
    apply try_except_inv in H7 as (w8 & r8 & H8 & H7).
    destruct r8 as [x|e].
    + destruct H7; subst w7 r7. apply fetch_try_block_ok in H8.
      destruct x as [p'|].
      * inversion H; subst. destruct H8 as [w9 H9]. exact (IH _ _ _ _ _ _ _ H9).
      * destruct H8 as [b Hb]. destruct md5sum as [d|].
        -- unfold md5_sum_file, bind, raise in H. discriminate H.
        -- inversion H; subst; eauto.
    + apply fetch_error_handler_spec in H7. destruct H7 as [_ ->].
      destruct H; discriminate.
Qed.

(** ** Runs of [_fetch_file] that resume a partial download *)

Lemma fetch_error_handler_out fn url v e w w' r :
  fetch_error_handler fn url v e w = (w', r) ->
  exists lines, w_out w' = (w_out w ++ map Stdout lines)%list.
Proof.
  unfold fetch_error_handler. intros H.
  set (msg := ("Error while fetching file " ++ fn ++
               ". Dataset fetching aborted.")%string) in H.
  destruct e; try (inversion H; subst; exists []; rewrite app_nil_r; reflexivity).
  - destruct (0 <? v)%Z; cbn in H; inversion H; subst; cbn.
    + exists [msg; ("HTTP Error: " ++ url)%string]. rewrite <- app_assoc. reflexivity.
    + exists [msg]. reflexivity.
  - destruct (0 <? v)%Z; cbn in H; inversion H; subst; cbn.
    + exists [msg; ("URL Error: " ++ url)%string]. rewrite <- app_assoc. reflexivity.
    + exists [msg]. reflexivity.
Qed.

Lemma fetch_try_block_resume E url fn v fb W W' rb old :
  ftplib_errors_only E -> w_temp W = Some old ->
  fetch_try_block E url fn true v fb W = (W', rb) ->
  (exists ops, w_net W' = (w_net W ++ FtpConnect url :: ops)%list /\
               Forall is_ftp_cmd ops) /\
  (exists lines, w_out W' = (w_out W ++ map Stdout lines)%list) /\
  (forall x, rb = Ok x -> x = None).
Proof.
  intros HE Hold H. unfold fetch_try_block in H.
  apply bind_inv in H as (W1 & r1 & H1 & H). inversion H1; subst W1 r1; clear H1.
  apply bind_inv in H as (W2 & r2 & H2 & H). inversion H2; subst W2 r2; clear H2.
  apply bind_inv in H as (W3 & r3 & H3 & H).
  cbn [w_dir w_final w_temp w_out w_net] in H3. rewrite Hold in H3.
  cbn [andb is_some] in H3.
  eapply resume_download_spec with (old := old) in H3; [|exact HE|reflexivity].
  destruct H3 as (_ & _ & (ops & Hn & Hops) & (lines & Ho) & Hok & _).
  cbn [w_dir w_final w_temp w_out w_net] in Hn, Ho.
  destruct r3 as [x|e].
  - destruct (Hok x eq_refl) as [-> T3].
    unfold move_temp_to_final, bind, get in H. rewrite T3 in H. cbn in H.
    injection H as <- <-. cbn.
    split; [exists ops; split; assumption|split; [|intros y Hy; congruence]].
    exists (("Downloading data from " ++ url ++ " ...")%string :: lines ++ ["...done."])%list.
    rewrite Ho. cbn [map]. rewrite map_app, <- !app_assoc. reflexivity.
  - destruct H; subst W' rb.
    split; [exists ops; split; assumption|split; [|discriminate]].
    exists (("Downloading data from " ++ url ++ " ...")%string :: lines)%list.
    rewrite Ho, <- !app_assoc. reflexivity.
Qed.

(** A fetch with [resume=True], [overwrite=False], no file at [full_name]
    and a partial temp file: its network activity is one FTP connection
    followed by FTP commands, and it writes only [print] lines. *)
Lemma fetch_resume_trace E url dir md5sum verbose w w' r old :
  ftplib_errors_only E -> w_final w = None -> w_temp w = Some old ->
  _fetch_file E url dir true false md5sum verbose w = (w', r) ->
  (exists ops, w_net w' = (w_net w ++ FtpConnect url :: ops)%list /\
               Forall is_ftp_cmd ops) /\
  (exists lines, w_out w' = (w_out w ++ map Stdout lines)%list).
Proof.
  intros HE Hfin Hold H.
  destruct w as [d fi te o n]; simpl in Hfin, Hold |- *; subst fi te.
  unfold _fetch_file in H.
  destruct d;
  cbn -[try_except fetch_try_block fetch_error_handler md5_sum_file basename
        path_join] in H;
  apply bind_inv in H as (W1 & r1 & H1 & H);
  unfold try_except in H1;
  match type of H1 with
  | match ?t with _ => _ end = _ => destruct t as [Wb rb] eqn:Hb
  end;
  (eapply fetch_try_block_resume in Hb; [|exact HE|reflexivity]);
  destruct Hb as ((ops & Hn & Hops) & (lines & Ho) & Hok); cbn in Hn, Ho;
  (destruct rb as [x|e];
   [ rewrite (Hok x eq_refl) in H1; injection H1 as <- <-;
     destruct md5sum as [dg|]; cbn in H;
     [ unfold md5_sum_file, bind, raise in H; cbn in H; injection H as <- <-
     | injection H as <- <- ]
   | pose proof (fetch_error_handler_out _ _ _ _ _ _ _ H1) as [l2 Ho2];
     apply fetch_error_handler_spec in H1; destruct H1 as [(_ & _ & _ & N1) ->];
     destruct H as [<- _];
     split; [exists ops; split; [congruence|assumption]
            |exists (lines ++ l2)%list; rewrite Ho2, Ho, map_app, app_assoc; reflexivity] ]);
  try (split; [exists ops; split; assumption|exists lines; assumption]).
Qed.

(** ** Auxiliary facts for the claims *)

Lemma test_env_ftplib cl login rest :
  (forall e, login = Some e -> ftplib_error e) ->
  (forall e, rest = Some e -> ftplib_error e) ->
  ftplib_errors_only (test_env cl login rest).
Proof.
  intros Hl Hr u. cbn. split; [exact Hl|split; [exact Hr|discriminate]].
Qed.

(** With a file already at [full_name] and [overwrite=False], the fetch
    only creates the data directory and returns [full_name]. *)
Lemma fetch_short_circuit E url dir resume md5sum verbose w b :
  w_final w = Some b ->
  _fetch_file E url dir resume false md5sum verbose w =
  ({| w_dir := true; w_final := w_final w; w_temp := w_temp w;
      w_out := w_out w; w_net := w_net w |}, Ok (path_join dir (basename url))).
Proof.
  intros Hf. destruct w as [d fi te o n]; cbn in Hf; subst fi.
  destruct d; reflexivity.
Qed.


(** [round_div a d] is [a / d] or [a / d + 1]. *)
Lemma round_div_range (a d : Z) :
  (0 < d)%Z -> (a / d <= round_div a d <= a / d + 1)%Z.
Proof.
  intros Hd. unfold round_div.
  destruct (2 * (a mod d) <? d)%Z; [lia|].
  destruct (2 * (a mod d) =? d)%Z; [destruct (Z.even (a / d))|]; lia.
Qed.

(** [float(n)] overflows for an integer [n > 1] exactly from
    [2 ^ 1024 - 2 ^ 970] on, where the nearest double is [2 ^ 1024]. *)
Lemma float_overflows_Z (n : Z) :
  (1 < n)%Z -> float_overflows (inject_Z n) = (2 ^ 1024 - 2 ^ 970 <=? n)%Z.
Proof.
  intros Hn. unfold float_overflows, float_parts, inject_Z. cbn [Qnum Qden].
  rewrite Z.div_1_r, Z.mul_1_l.
  pose proof (Z.log2_spec n ltac:(lia)) as [Hlo Hhi].
  remember (Z.log2 n) as k eqn:Hk.
  destruct (Z.leb_spec 0 (k - 52)) as [He|He];
    [rewrite (proj2 (Z.leb_le _ _) He)|rewrite (proj2 (Z.leb_gt _ _) He)];
    cbn [andb].
  2:{ symmetry. apply Z.leb_gt.
      assert (2 ^ Z.succ k <= 2 ^ 52)%Z by (apply Z.pow_le_mono_r; lia). lia. }
  set (d := (2 ^ (k - 52))%Z).
  assert (Hd : (0 < d)%Z) by (apply Z.pow_pos_nonneg; lia).
  assert (Hk52 : (2 ^ k = d * 2 ^ 52)%Z)
    by (unfold d; rewrite <- Z.pow_add_r by lia; f_equal; lia).
  assert (Hk53 : (2 ^ Z.succ k = d * 2 ^ 53)%Z)
    by (unfold d; rewrite <- Z.pow_add_r by lia; f_equal; lia).
  pose proof (round_div_range n d Hd) as Hm.
  assert (Hf1 : (2 ^ 52 <= n / d)%Z)
    by (apply Z.div_le_lower_bound; lia).
  assert (Hf2 : (n / d < 2 ^ 53)%Z)
    by (apply Z.div_lt_upper_bound; lia).
  destruct (Z.le_gt_cases k 1022) as [Hs|Hs].
  { assert (2 ^ Z.succ k <= 2 ^ 1023)%Z by (apply Z.pow_le_mono_r; lia).
    assert (round_div n d * d <= 2 ^ 53 * d)%Z
      by (apply Z.mul_le_mono_nonneg_r; lia).
    transitivity false; [apply Z.leb_gt; lia|symmetry; apply Z.leb_gt; lia]. }
  destruct (Z.le_gt_cases 1024 k) as [Hb|Hb].
  { assert (2 ^ 1024 <= 2 ^ k)%Z by (apply Z.pow_le_mono_r; lia).
    assert (2 ^ 52 * d <= round_div n d * d)%Z
      by (apply Z.mul_le_mono_nonneg_r; lia).
    transitivity true; [apply Z.leb_le; lia|symmetry; apply Z.leb_le; lia]. }
  assert (k = 1023)%Z as -> by lia.
  assert (Ed : d = (2 ^ 971)%Z) by (unfold d; f_equal).
  clearbody d. subst d.
  pose proof (Z.div_mod n (2 ^ 971) ltac:(lia)).
  pose proof (Z.mod_pos_bound n (2 ^ 971) ltac:(lia)).
  unfold round_div.
  destruct (Z.ltb_spec (2 * (n mod 2 ^ 971)) (2 ^ 971));
    [|destruct (Z.eqb_spec (2 * (n mod 2 ^ 971)) (2 ^ 971));
      [destruct (Z.even (n / 2 ^ 971)) eqn:Ev|]].
  all: destruct (Z.leb_spec (2 ^ 1024) ((n / 2 ^ 971) * 2 ^ 971));
    destruct (Z.leb_spec (2 ^ 1024) ((n / 2 ^ 971 + 1) * 2 ^ 971));
    destruct (Z.leb_spec (2 ^ 1024 - 2 ^ 970) n); try reflexivity; try lia.
  all: assert (Ef : (n / 2 ^ 971 = 2 ^ 53 - 1)%Z) by lia;
    rewrite Ef in Ev; vm_compute in Ev; discriminate Ev.
Qed.

(** [sizeof_fmt] raises [OverflowError] on an integer from
    [2 ^ 1024 - 2 ^ 970] on. *)
Lemma sizeof_fmt_overflow_Z (n : Z) :
  (2 ^ 1024 - 2 ^ 970 <= n)%Z -> sizeof_fmt (inject_Z n) = Raise OverflowError.
Proof.
  intros Hn. assert (H1 : (1 < n)%Z) by lia. unfold sizeof_fmt.
  destruct (Qlt_le_dec 1 (inject_Z n)) as [_|Hle];
    [|exfalso; apply (Qle_not_lt _ _ Hle); unfold Qlt; simpl; lia].
  rewrite (float_overflows_Z n H1). apply Z.leb_le in Hn. rewrite Hn.
  reflexivity.
Qed.

(** * Statements of the specification *)

(** ** Checksums and the final path *)

(** C1 (code bug): with a checksum supplied and no file at [full_name]
    beforehand, the fetch either fails leaving no file at [full_name], or
    moves the completely transferred file to [full_name] and then raises
    [NameError] at the lookup of [_md5_sum_file], which mne/utils.py never
    defines: the digest is never compared, the unverified file stays at
    [full_name], and a later call with the same checksum returns
    [full_name] at once. *)
Theorem fetch_checksum_unverified E url dir resume overwrite d verbose w w' r :
  ftplib_errors_only E -> w_final w = None ->
  _fetch_file E url dir resume overwrite (Some d) verbose w = (w', r) ->
  (w_final w' = None /\ exists e, r = Raise e) \/
  (exists b, w_final w' = Some b /\
     transferred E url (if overwrite then None else w_temp w) b /\
     r = Raise NameError /\
     forall resume' verbose',
       snd (_fetch_file E url dir resume' false (Some d) verbose' w') =
       Ok (path_join dir (basename url))).
Proof.
  intros HE Hf H.
  destruct (fetch_outcome E url dir resume overwrite (Some d) verbose w w' r HE
              (or_introl Hf) H) as [A|(b & Fb & Tb & Hd)]; [left; exact A|right].
  exists b. split; [exact Fb|split; [exact Tb|split; [exact Hd|]]].
  intros resume' verbose'.
  rewrite (fetch_short_circuit E url dir resume' (Some d) verbose' w' b Fb).
  reflexivity.
Qed.

Lemma fetch_checksum_unverified_witness :
  let E := test_env (Some "3") None None in
  let run := _fetch_file E "http://h/d/f.gz" "dir" false false (Some "4") 0
               fresh_world in
  ftplib_errors_only E /\ w_final fresh_world = None /\
  ((w_final (fst run) = None /\ exists e, snd run = Raise e) \/
   (exists b, w_final (fst run) = Some b /\
      transferred E "http://h/d/f.gz" (w_temp fresh_world) b /\
      snd run = Raise NameError /\
      forall resume' verbose',
        snd (_fetch_file E "http://h/d/f.gz" "dir" resume' false (Some "4")
               verbose' (fst run)) =
        Ok (path_join "dir" (basename "http://h/d/f.gz")))).
Proof.
  intros E run.
  assert (HE : ftplib_errors_only E)
    by (apply test_env_ftplib; intros e He; discriminate).
  split; [exact HE|split; [reflexivity|]].
  exact (fetch_checksum_unverified E "http://h/d/f.gz" "dir" false false "4" 0
           fresh_world (fst run) (snd run) HE eq_refl
           ltac:(vm_compute; reflexivity)).
Defined.

(** C4 (code bug): with a checksum supplied and a download attempted (no
    file at [full_name], or [overwrite] set), the fetch never returns a
    path, whatever the digest of the data: once the transferred bytes are
    at [full_name] it raises [NameError], so neither the [ValueError] of a
    mismatch nor the success of a match can occur.  The fallback of the
    resume branch, which would call [_fetch_file] again without the
    checksum, is never taken, since ftplib raises no [urllib2.HTTPError]. *)
Theorem fetch_checksum_gate_broken E url dir resume overwrite d verbose w w' r :
  ftplib_errors_only E -> (w_final w = None \/ overwrite = true) ->
  _fetch_file E url dir resume overwrite (Some d) verbose w = (w', r) ->
  (forall p, r <> Ok p) /\
  (forall b, w_final w' = Some b ->
     transferred E url (if overwrite then None else w_temp w) b /\
     r = Raise NameError).
Proof.
  intros HE Hpre H.
  destruct (fetch_outcome _ _ _ _ _ _ _ _ _ _ HE Hpre H)
    as [(Fn & e & ->)|(b & Fb & Tb & ->)].
  - split; [intros p Hp; discriminate|intros b Hb; congruence].
  - split; [intros p Hp; discriminate|].
    intros b' Hb'. rewrite Fb in Hb'. injection Hb' as <-. auto.
Qed.

Lemma fetch_checksum_gate_broken_witness :
  let E := test_env (Some "3") None None in
  let run := _fetch_file E "ftp://h/d/f.gz" "dir" true false (Some "4") 0
               partial_world in
  ftplib_errors_only E /\ (w_final partial_world = None \/ false = true) /\
  (forall p, snd run <> Ok p) /\
  (forall b, w_final (fst run) = Some b ->
     transferred E "ftp://h/d/f.gz" (w_temp partial_world) b /\
     snd run = Raise NameError).
Proof.
  intros E run.
  assert (HE : ftplib_errors_only E)
    by (apply test_env_ftplib; intros e He; discriminate).
  split; [exact HE|split; [left; reflexivity|]].
  exact (fetch_checksum_gate_broken E "ftp://h/d/f.gz" "dir" true false "4" 0
           partial_world (fst run) (snd run) HE (or_introl eq_refl)
           ltac:(vm_compute; reflexivity)).
Defined.

(** ** Resuming a partial download *)

(** C2 (code bug): a resumed FTP download whose server rejects [REST]
    fails with the FTP error; there is no fallback to a full download (no
    [urlopen] is issued), because the inner handler catches
    [urllib2.HTTPError], which ftplib does not raise. *)
Theorem rest_rejection_no_fallback :
  _fetch_file (test_env (Some "3") None (Some FtpError)) "ftp://h/d/f.gz" "dir"
    true false None 0 partial_world =
  ({| w_dir := true; w_final := None; w_temp := Some [Byte.x00];
      w_out := [Stdout "Downloading data from ftp://h/d/f.gz ..."];
      w_net := [FtpConnect "ftp://h/d/f.gz"; FtpCmd "TYPE I"; FtpCmd "REST 1"] |},
   Raise FtpError).
Proof. vm_compute. reflexivity. Qed.

(** C3 (corrected): with [resume=True], [overwrite=False], no file at
    [full_name] and a partial temp file, the fetch takes the FTP resume
    path whatever the URL's scheme: its network activity is an FTP
    connection to the URL followed by FTP commands only. *)
Theorem resume_always_ftp E url dir md5sum verbose w w' r old :
  ftplib_errors_only E -> w_final w = None -> w_temp w = Some old ->
  _fetch_file E url dir true false md5sum verbose w = (w', r) ->
  exists ops, w_net w' = (w_net w ++ FtpConnect url :: ops)%list /\
              Forall is_ftp_cmd ops.
Proof.
  intros HE Hf Ht H. exact (proj1 (fetch_resume_trace _ _ _ _ _ _ _ _ _ HE Hf Ht H)).
Qed.

(** C3: an http URL with a partial temp file: the fetch connects with FTP
    and fails there, without any HTTP request. *)
Lemma http_resume_connects_ftp :
  _fetch_file (test_env (Some "3") (Some SocketError) None) "http://h/d/f.gz"
    "dir" true false None 0 partial_world =
  ({| w_dir := true; w_final := None; w_temp := Some [Byte.x00];
      w_out := [Stdout "Downloading data from http://h/d/f.gz ..."];
      w_net := [FtpConnect "http://h/d/f.gz"] |}, Raise SocketError).
Proof. vm_compute. reflexivity. Qed.

Lemma resume_always_ftp_witness :
  let E := test_env (Some "3") None None in
  let run := _fetch_file E "http://h/d/f.gz" "dir" true false None 0
               partial_world in
  ftplib_errors_only E /\ w_final partial_world = None /\
  w_temp partial_world = Some [Byte.x00] /\
  exists ops, w_net (fst run) =
                (w_net partial_world ++ FtpConnect "http://h/d/f.gz" :: ops)%list /\
              Forall is_ftp_cmd ops.
Proof.
  intros E run.
  assert (HE : ftplib_errors_only E)
    by (apply test_env_ftplib; intros e He; discriminate).
  split; [exact HE|split; [reflexivity|split; [reflexivity|]]].
  exact (resume_always_ftp E "http://h/d/f.gz" "dir" None 0 partial_world
           (fst run) (snd run) [Byte.x00] HE eq_refl eq_refl
           ltac:(vm_compute; reflexivity)).
Defined.

(** C10: with [resume=True], [overwrite=False], no file at [full_name] and a
    partial temp file, the fetch writes [print] lines only: no progress bar
    rendering and nothing on stderr. *)
Theorem resume_no_progress_output E url dir md5sum verbose w w' r old :
  ftplib_errors_only E -> w_final w = None -> w_temp w = Some old ->
  _fetch_file E url dir true false md5sum verbose w = (w', r) ->
  exists lines, w_out w' = (w_out w ++ map Stdout lines)%list.
Proof.
  intros HE Hf Ht H. exact (proj2 (fetch_resume_trace _ _ _ _ _ _ _ _ _ HE Hf Ht H)).
Qed.

Lemma resume_no_progress_output_witness :
  let E := test_env (Some "3") None None in
  let run := _fetch_file E "ftp://h/d/f.gz" "dir" true false None 0
               partial_world in
  ftplib_errors_only E /\ w_final partial_world = None /\
  w_temp partial_world = Some [Byte.x00] /\
  exists lines, w_out (fst run) = (w_out partial_world ++ map Stdout lines)%list.
Proof.
  intros E run.
  assert (HE : ftplib_errors_only E)
    by (apply test_env_ftplib; intros e He; discriminate).
  split; [exact HE|split; [reflexivity|split; [reflexivity|]]].
  exact (resume_no_progress_output E "ftp://h/d/f.gz" "dir" None 0 partial_world
           (fst run) (snd run) [Byte.x00] HE eq_refl eq_refl
           ltac:(vm_compute; reflexivity)).
Defined.

(** ** The chunked read *)

(** C5 (code bug): [_chunk_read_] ends in a bare [return]: whatever the
    response, chunk size, hook and sizes, a run that does not raise returns
    [None], neither the number of bytes transferred nor the data read. *)
Theorem chunk_read_result_none resp cs hook init ts v w w' x :
  _chunk_read_ resp cs hook init ts v w = (w', Ok x) -> x = PyNone.
Proof.
  unfold _chunk_read_. intros H.
  apply bind_ok_inv in H as (ts1 & w1 & _ & H).
  apply bind_ok_inv in H as (ts2 & w2 & _ & H).
  apply bind_ok_inv in H as (p & w3 & _ & H).
  apply bind_ok_inv in H as (u & w4 & _ & H).
  unfold ret in H. congruence.
Qed.

Lemma chunk_read_result_none_witness :
  let run := _chunk_read_ (test_response (Some "3")) 8192 true 0 None 0
               open_temp_world in
  w_temp (fst run) = Some body3 /\ snd run = Ok PyNone /\
  (forall x, snd run = Ok x -> x = PyNone).
Proof.
  intros run. split; [vm_compute; reflexivity|].
  split; [vm_compute; reflexivity|].
  intros x Hx.
  exact (chunk_read_result_none (test_response (Some "3")) 8192 true 0 None 0
           open_temp_world (fst run) x
           ltac:(rewrite <- Hx; apply surjective_pairing)).
Defined.



(** ** A missing or unparsable [Content-Length] *)

(** C6 (code bug): [_chunk_read_] with the progress bar on fails when the
    response has no [Content-Length] header ([None.strip()] raises
    [AttributeError]) and when the header does not parse
    ([ProgressBar(..., None)] raises [TypeError] at [float(None)]); so a
    full download through [_fetch_file] fails in both cases. *)
Theorem content_length_missing_or_bad_fails :
  (forall resp cs init v w, r_content_length resp = None ->
     snd (_chunk_read_ resp cs true init None v w) = Raise AttributeError) /\
  (forall resp s cs init v w, r_content_length resp = Some s ->
     parse_int (strip s) = None ->
     snd (_chunk_read_ resp cs true init None v w) = Raise TypeError) /\
  snd (_fetch_file (test_env None None None) "http://h/d/f.gz" "dir"
         false false None 0 fresh_world) = Raise AttributeError /\
  snd (_fetch_file (test_env (Some "abc") None None) "http://h/d/f.gz" "dir"
         false false None 0 fresh_world) = Raise TypeError.
Proof.
  split; [|split; [|split]].
  - intros resp cs init v w Hcl. unfold _chunk_read_. rewrite Hcl. reflexivity.
  - intros resp s cs init v w Hcl Hp. unfold _chunk_read_. rewrite Hcl.
    cbv [bind ret]. rewrite Hp.
    destruct (0 <? v)%Z, (1 <? v)%Z; reflexivity.
  - vm_compute. reflexivity.
  - vm_compute. reflexivity.
Qed.

(** ** An existing file *)

(** C7: with [overwrite=False] and a file at [full_name], the fetch returns
    [full_name] at once, issuing no network operation and leaving the
    files and the output as they are (it only makes sure the data directory
    exists); hence a second identical call after a successful one returns
    the same path with no network activity. *)
Theorem fetch_idempotent E url dir resume md5sum verbose :
  (forall w b, w_final w = Some b ->
     _fetch_file E url dir resume false md5sum verbose w =
     ({| w_dir := true; w_final := w_final w; w_temp := w_temp w;
         w_out := w_out w; w_net := w_net w |},
      Ok (path_join dir (basename url)))) /\
  (forall w w1 p, _fetch_file E url dir resume false md5sum verbose w = (w1, Ok p) ->
     _fetch_file E url dir resume false md5sum verbose w1 =
     ({| w_dir := true; w_final := w_final w1; w_temp := w_temp w1;
         w_out := w_out w1; w_net := w_net w1 |}, Ok p)).
Proof.
  split.
  - intros w b Hb. exact (fetch_short_circuit _ _ _ _ _ _ w b Hb).
  - intros w w1 p H.
    destruct (fetch_ok_final _ _ _ _ _ _ _ _ _ _ _ H) as [-> [b Hb]].
    exact (fetch_short_circuit _ _ _ _ _ _ w1 b Hb).
Qed.

Lemma fetch_idempotent_witness :
  let E := test_env (Some "3") None None in
  let run := _fetch_file E "http://h/d/f.gz" "dir" false false None 0
               fresh_world in
  snd run = Ok "dir/f.gz" /\
  _fetch_file E "http://h/d/f.gz" "dir" false false None 0 (fst run) =
  ({| w_dir := true; w_final := w_final (fst run); w_temp := w_temp (fst run);
      w_out := w_out (fst run); w_net := w_net (fst run) |}, Ok "dir/f.gz").
Proof.
  intros E run. split; [vm_compute; reflexivity|].
  exact (proj2 (fetch_idempotent E "http://h/d/f.gz" "dir" false None 0)
           fresh_world (fst run) "dir/f.gz" ltac:(vm_compute; reflexivity)).
Defined.

(** ** [sizeof_fmt] *)




(** C9: [sizeof_fmt] gives no string exactly for the negative inputs and
    the inputs strictly between 0 and 1. *)
Theorem sizeof_fmt_none_iff (q : Q) :
  sizeof_fmt q = Ok None <-> (q < 0 \/ (0 < q /\ q < 1))%Q.
Proof.
  destruct q as [a b]. unfold sizeof_fmt.
  destruct (Qlt_le_dec 1 (a # b)) as [H1|H1];
    [cbv zeta; destruct (float_overflows (a # b));
     [|destruct (nth _ unit_list _) as [u nd]]
    |destruct (Qeq_bool (a # b) 0) eqn:E0;
      [apply Qeq_bool_iff in E0
      |apply Qeq_bool_neq in E0;
       destruct (Qeq_bool (a # b) 1) eqn:E1;
       [apply Qeq_bool_iff in E1|apply Qeq_bool_neq in E1]]];
    unfold Qlt, Qle, Qeq in *; simpl in *; split; intros;
    try discriminate; try reflexivity; try (exfalso; lia); lia.
Qed.

(** * Further properties of mne/utils.py *)

Local Open Scope list_scope.

(** ** [split_list] *)

Lemma firstn_add_skipn {A} (a b : nat) (l : list A) :
  firstn (a + b) l = firstn a l ++ firstn b (skipn a l).
Proof.
  revert l. induction a as [|a IH]; intros l; [reflexivity|].
  destruct l as [|x l]; [rewrite !firstn_nil; reflexivity|].
  cbn [Nat.add firstn skipn app]. rewrite IH. reflexivity.
Qed.

Lemma concat_blocks {A} (l : list A) (sz k : nat) :
  concat (map (fun i => firstn sz (skipn (i * sz) l)) (seq 0 k)) =
  firstn (k * sz) l.
Proof.
  induction k as [|k IH]; [reflexivity|].
  rewrite seq_S, map_app, concat_app, IH. cbn [map concat seq].
  rewrite app_nil_r, Nat.add_0_l.
  replace (S k * sz)%nat with (k * sz + sz)%nat by lia.
  rewrite firstn_add_skipn. reflexivity.
Qed.

Lemma slice_index_nonneg len i :
  (0 <= i <= Z.of_nat len)%Z -> slice_index len i = Z.to_nat i.
Proof.
  intros H. unfold slice_index.
  replace (i <? 0)%Z with false by (symmetry; apply Z.ltb_ge; lia).
  f_equal. lia.
Qed.

(** [split_list(l, n)] with [n >= 1] yields [n] pieces that concatenate
    back to [l]; all but the last have [len(l) // n] elements, and the last
    takes the remainder. *)
Theorem split_list_pieces {A} (l : list A) (n : Z) :
  (1 <= n)%Z ->
  exists ps, split_list l n = Ok ps /\
    length ps = Z.to_nat n /\ concat ps = l /\
    (forall i, (i < Z.to_nat n - 1)%nat ->
       length (nth i ps []) = (length l / Z.to_nat n)%nat) /\
    length (last ps []) =
      (length l - (Z.to_nat n - 1) * (length l / Z.to_nat n))%nat.
Proof.
  intros Hn. unfold split_list.
  replace (n =? 0)%Z with false by (symmetry; apply Z.eqb_neq; lia).
  set (L := length l).
  set (N := Z.to_nat n).
  assert (HnN : n = Z.of_nat N) by (unfold N; lia).
  set (sz := (L / N)%nat).
  assert (Hsz : (Z.of_nat L / n)%Z = Z.of_nat sz)
    by (unfold sz; rewrite HnN, Nat2Z.inj_div; reflexivity).
  rewrite Hsz.
  assert (HNsz : (N * sz <= L)%nat) by (apply Nat.Div0.mul_div_le).
  assert (Hblocks :
    map (fun i => py_slice l (i * Z.of_nat sz) ((i + 1) * Z.of_nat sz))
        (map Z.of_nat (seq 0 (Z.to_nat (n - 1)))) =
    map (fun i => firstn sz (skipn (i * sz) l)) (seq 0 (N - 1))).
  { rewrite map_map. replace (Z.to_nat (n - 1)) with (N - 1)%nat by lia.
    apply map_ext_in. intros i Hi. apply in_seq in Hi.
    unfold py_slice. fold L.
    rewrite (slice_index_nonneg L), (slice_index_nonneg L) by nia.
    f_equal; [|f_equal]; lia. }
  rewrite Hblocks.
  eexists. split; [reflexivity|].
  assert (Hlast : py_slice_from l ((n - 1) * Z.of_nat sz) =
                  skipn ((N - 1) * sz) l).
  { unfold py_slice_from. fold L. rewrite slice_index_nonneg by nia.
    f_equal. rewrite HnN.
    replace (Z.of_nat N - 1)%Z with (Z.of_nat (N - 1)) by lia.
    rewrite <- Nat2Z.inj_mul, Nat2Z.id. reflexivity. }
  rewrite Hlast.
  split; [|split; [|split]].
  - rewrite length_app, length_map, length_seq. simpl. lia.
  - rewrite concat_app, concat_blocks. simpl. rewrite app_nil_r.
    apply firstn_skipn.
  - intros i Hi. rewrite app_nth1 by (rewrite length_map, length_seq; lia).
    rewrite nth_indep with
      (d' := (fun i0 => firstn sz (skipn (i0 * sz) l)) O)
      by (rewrite length_map, length_seq; lia).
    change (firstn sz (skipn (0 * sz) l))
      with ((fun i0 => firstn sz (skipn (i0 * sz) l)) O).
    rewrite map_nth, seq_nth by lia. cbn beta.
    rewrite length_firstn, length_skipn. fold L. nia.
  - rewrite last_last, length_skipn. reflexivity.
Qed.

(** [split_list(l, 0)] raises [ZeroDivisionError], and a negative [n] yields
    a single empty piece: every element of [l] is dropped. *)
Theorem split_list_nonpositive {A} (l : list A) (n : Z) :
  (n <= 0)%Z ->
  split_list l n = if (n =? 0)%Z then Raise ZeroDivisionError else Ok [[]].
Proof.
  intros Hn. unfold split_list. destruct (n =? 0)%Z eqn:H0; [reflexivity|].
  apply Z.eqb_neq in H0.
  replace (Z.to_nat (n - 1)) with O by lia. cbn [seq map app].
  f_equal. f_equal. unfold py_slice_from.
  set (L := Z.of_nat (length l)).
  assert (HL : (0 <= L)%Z) by (unfold L; lia).
  destruct (Z.eq_dec L 0) as [HL0|HL0].
  - destruct l as [|x l']; [apply skipn_nil|].
    exfalso. unfold L in HL0. cbn [length] in HL0. lia.
  - pose proof (Z.div_mod L n H0) as Hdm.
    pose proof (Z.mod_neg_bound L n ltac:(lia)) as Hb.
    assert (Hq : (L / n <= -1)%Z).
    { destruct (Z.le_gt_cases (L / n) (-1)); [assumption|]. nia. }
    apply skipn_all2. unfold slice_index.
    replace ((n - 1) * (L / n) <? 0)%Z with false
      by (symmetry; apply Z.ltb_ge; nia).
    fold L. nia.
Qed.

Lemma split_list_pieces_witness :
  (1 <= 3)%Z /\
  exists ps, split_list [1; 2; 3; 4; 5; 6; 7] 3%Z = Ok ps /\
    length ps = Z.to_nat 3 /\ concat ps = [1; 2; 3; 4; 5; 6; 7] /\
    (forall i, (i < Z.to_nat 3 - 1)%nat ->
       length (nth i ps []) = (length [1; 2; 3; 4; 5; 6; 7] / Z.to_nat 3)%nat) /\
    length (last ps []) =
      (length [1; 2; 3; 4; 5; 6; 7] - (Z.to_nat 3 - 1) *
         (length [1; 2; 3; 4; 5; 6; 7] / Z.to_nat 3))%nat.
Proof.
  split; [lia|].
  exact (split_list_pieces [1; 2; 3; 4; 5; 6; 7] 3%Z ltac:(lia)).
Defined.

Lemma split_list_nonpositive_witness :
  (-2 <= 0)%Z /\
  split_list [1; 2; 3] (-2)%Z =
    if (-2 =? 0)%Z then Raise ZeroDivisionError else Ok [[]].
Proof.
  split; [lia|].
  exact (split_list_nonpositive [1; 2; 3] (-2)%Z ltac:(lia)).
Defined.

(** ** [ProgressBar.update_with_increment_value] *)





(** ** [_download_status] *)

Lemma block_sz_pos : (0 < block_sz)%nat.
Proof. apply Nat.ltb_lt. vm_compute. reflexivity. Qed.




(** When [urlopen] raises, [_download_status] prints ["Could not load URL"]
    and re-raises the same exception without touching [file_name]. *)
Theorem download_status_urlopen_error E url file_name pd e w :
  urlopen E url = Raise e ->
  _download_status E url file_name pd w =
  ({| w_dir := w_dir w; w_final := w_final w; w_temp := w_temp w;
      w_out := w_out w ++ [Stdout ("Could not load URL: " ++ url)%string];
      w_net := w_net w ++ [UrlOpen url] |}, DownloadRaise e).
Proof.
  intros Hu.
  unfold _download_status, try_except, bind, net, lift. cbv beta iota.
  rewrite Hu. reflexivity.
Qed.

Lemma download_status_urlopen_error_witness :
  let E := {| urlopen := fun _ => Raise URLError;
              ftp_session := fun _ => test_server None None |} in
  urlopen E "u" = Raise URLError /\
  _download_status E "u" "f" true partial_world =
  ({| w_dir := true; w_final := None; w_temp := Some [Byte.x00];
      w_out := [Stdout "Could not load URL: u"];
      w_net := [UrlOpen "u"] |}, DownloadRaise URLError).
Proof.
  intros E. split; [reflexivity|].
  exact (download_status_urlopen_error E "u" "f" true URLError partial_world
           eq_refl).
Defined.

(** A missing [Content-Length] header raises [IndexError] and one that is
    not an integer raises [ValueError]; either way [file_name] has been
    truncated to an empty file and nothing was printed. *)
Theorem download_status_bad_header E url file_name pd u w :
  urlopen E url = Ok u ->
  match r_content_length u with
  | None => True
  | Some h => parse_int h = None
  end ->
  _download_status E url file_name pd w =
  ({| w_dir := w_dir w; w_final := Some []; w_temp := w_temp w;
      w_out := w_out w; w_net := w_net w ++ [UrlOpen url] |},
   match r_content_length u with
   | None => DownloadIndexError
   | Some _ => DownloadRaise ValueError
   end).
Proof.
  intros Hu Hh.
  unfold _download_status, try_except, bind at 1, net, lift. cbv beta iota.
  rewrite Hu. cbv beta iota. unfold set_final at 1.
  destruct (r_content_length u) as [h|]; [|reflexivity].
  unfold download_body. rewrite Hh. reflexivity.
Qed.

Lemma download_status_bad_header_witness :
  let E := test_env (Some "3 kB") None None in
  urlopen E "u" = Ok (test_response (Some "3 kB")) /\
  parse_int "3 kB" = None /\
  _download_status E "u" "f" true fresh_world =
  ({| w_dir := false; w_final := Some []; w_temp := None;
      w_out := []; w_net := [UrlOpen "u"] |}, DownloadRaise ValueError).
Proof.
  intros E. split; [reflexivity|]. split; [reflexivity|].
  exact (download_status_bad_header E "u" "f" true (test_response (Some "3 kB"))
           fresh_world eq_refl eq_refl).
Defined.

(** A [Content-Length] of [0] on a non-empty body raises
    [ZeroDivisionError] from the progress bar right after the first block
    has been written to [file_name]. *)
Theorem download_status_zero_length E url file_name pd u h w :
  urlopen E url = Ok u -> r_content_length u = Some h ->
  parse_int h = Some 0%Z -> r_body u <> [] ->
  _download_status E url file_name pd w =
  ({| w_dir := w_dir w; w_final := Some (firstn block_sz (r_body u));
      w_temp := w_temp w;
      w_out := w_out w ++ [Stdout ("Downloading: " ++ url ++ " (0 bytes)")%string];
      w_net := w_net w ++ [UrlOpen url] |}, DownloadRaise ZeroDivisionError).
Proof.
  intros Hu Hcl Hp Hb.
  unfold _download_status, try_except, bind at 1, net, lift. cbv beta iota.
  rewrite Hu. cbv beta iota. unfold set_final at 1. rewrite Hcl.
  unfold download_body. rewrite Hp.
  unfold bind at 1, lift.
  replace (sizeof_fmt (inject_Z 0)) with (Ok (A := option string) (Some "0 bytes"%string))
    by (vm_compute; reflexivity).
  unfold bind at 1 2, emit at 1, progress_bar_init, ret at 1. cbv beta iota.
  cbn [w_dir w_final w_temp w_out w_net].
  destruct (r_body u) as [|x rest] eqn:Hbody; [congruence|].
  unfold bind at 1. cbn [download_loop].
  replace (response_read (r_err u) (x :: rest) block_sz)
    with (Ok (A := bytes) (firstn block_sz (x :: rest))) by reflexivity.
  assert (Hf : firstn block_sz (x :: rest) = x :: firstn (pred block_sz) rest).
  { pose proof block_sz_pos as Hbs.
    rewrite <- (Nat.succ_pred_pos block_sz) at 1 by exact Hbs. reflexivity. }
  rewrite Hf. reflexivity.
Qed.

Lemma download_status_zero_length_witness :
  let E := test_env (Some "0") None None in
  urlopen E "u" = Ok (test_response (Some "0")) /\
  r_content_length (test_response (Some "0")) = Some "0" /\
  parse_int "0" = Some 0%Z /\ r_body (test_response (Some "0")) <> [] /\
  _download_status E "u" "f" true fresh_world =
  ({| w_dir := false; w_final := Some body3; w_temp := None;
      w_out := [Stdout "Downloading: u (0 bytes)"];
      w_net := [UrlOpen "u"] |}, DownloadRaise ZeroDivisionError).
Proof.
  intros E. split; [reflexivity|]. split; [reflexivity|].
  split; [reflexivity|]. split; [discriminate|].
  rewrite (download_status_zero_length E "u" "f" true (test_response (Some "0"))
             "0" fresh_world eq_refl eq_refl eq_refl ltac:(discriminate)).
  vm_compute. reflexivity.
Defined.

(** A [Content-Length] of [2 ^ 1024 - 2 ^ 970] or more makes [sizeof_fmt]
    raise [OverflowError] at [float(num)]: [_download_status] fails after
    truncating [file_name] to an empty file, before printing anything. *)
Theorem download_status_overflow E url file_name pd u h n w :
  urlopen E url = Ok u -> r_content_length u = Some h ->
  parse_int h = Some n -> (2 ^ 1024 - 2 ^ 970 <= n)%Z ->
  _download_status E url file_name pd w =
  ({| w_dir := w_dir w; w_final := Some []; w_temp := w_temp w;
      w_out := w_out w; w_net := w_net w ++ [UrlOpen url] |},
   DownloadRaise OverflowError).
Proof.
  intros Hu Hcl Hp Hn.
  unfold _download_status, try_except, bind at 1, net, lift. cbv beta iota.
  rewrite Hu. cbv beta iota. unfold set_final at 1. rewrite Hcl.
  unfold download_body. rewrite Hp.
  unfold bind at 1, lift. rewrite (sizeof_fmt_overflow_Z n Hn). reflexivity.
Qed.

Lemma download_status_overflow_witness :
  let h := str_Z (2 ^ 1024) in
  let E := test_env (Some h) None None in
  urlopen E "u" = Ok (test_response (Some h)) /\
  r_content_length (test_response (Some h)) = Some h /\
  parse_int h = Some (2 ^ 1024)%Z /\ (2 ^ 1024 - 2 ^ 970 <= 2 ^ 1024)%Z /\
  _download_status E "u" "f" true fresh_world =
  ({| w_dir := false; w_final := Some []; w_temp := None; w_out := [];
      w_net := [UrlOpen "u"] |}, DownloadRaise OverflowError).
Proof.
  intros h E. split; [reflexivity|]. split; [reflexivity|].
  split; [vm_compute; reflexivity|]. split; [lia|].
  exact (download_status_overflow E "u" "f" true (test_response (Some h)) h
           (2 ^ 1024) fresh_world eq_refl eq_refl ltac:(vm_compute; reflexivity)
           ltac:(lia)).
Defined.

(** ** [get_config], [set_config], [get_subjects_dir] *)

(** A key set in [os.environ] is returned from there, whatever the config
    file holds and even when [HOME] is unset; nothing is read or changed. *)
Theorem get_config_environ_first k v default raise_error w :
  assoc k (c_environ w) = Some v ->
  get_config (PStr k) default raise_error w = (w, COk (PStr v)).
Proof. intros H. unfold get_config, cbind, cget. rewrite H. reflexivity. Qed.

Lemma get_config_environ_first_witness :
  let w := mkCWorld [("SUBJECTS_DIR", "/subjects")] [] [] [] [] (PInt 0) in
  assoc "SUBJECTS_DIR" (c_environ w) = Some "/subjects" /\
  get_config (PStr "SUBJECTS_DIR") PNone true w = (w, COk (PStr "/subjects")).
Proof.
  intros w. split; [reflexivity|].
  exact (get_config_environ_first "SUBJECTS_DIR" "/subjects" PNone true w
           eq_refl).
Defined.

(** A key absent from [os.environ] with [HOME] unset raises [ValueError],
    even when a default is given. *)
Theorem get_config_no_home k default raise_error w :
  assoc k (c_environ w) = None -> assoc "HOME" (c_environ w) = None ->
  get_config (PStr k) default raise_error w = (w, CRaise CValueError).
Proof.
  intros Hk Hh. unfold get_config, get_config_path, cbind, cget.
  rewrite Hk, Hh. reflexivity.
Qed.

Lemma get_config_no_home_witness :
  let w := mkCWorld [] [] [] [] [] (PInt 0) in
  assoc "SUBJECTS_DIR" (c_environ w) = None /\
  assoc "HOME" (c_environ w) = None /\
  get_config (PStr "SUBJECTS_DIR") (PStr "/default") false w =
    (w, CRaise CValueError).
Proof.
  intros w. split; [reflexivity|]. split; [reflexivity|].
  exact (get_config_no_home "SUBJECTS_DIR" (PStr "/default") false w
           eq_refl eq_refl).
Defined.

(** [get_config] never changes the state: it creates no file, directory,
    warning or log message and leaves the logger level alone. *)
Theorem get_config_pure key default raise_error w :
  fst (get_config key default raise_error w) = w.
Proof.
  destruct key as [| | |k|]; try reflexivity.
  unfold get_config, get_config_path, cbind, cget, cret, craise.
  destruct (assoc k (c_environ w)); [reflexivity|].
  destruct (assoc "HOME" (c_environ w)); [|reflexivity].
  destruct (assoc _ (c_files w)) as [[config|]|];
    [destruct (assoc k config)| |]; destruct raise_error; reflexivity.
Qed.

(** A key found neither in [os.environ] nor in the config file (absent, or
    a JSON object without the key) gives the default, or [KeyError] when
    [raise_error] is [True]. *)
Theorem get_config_missing_key k default raise_error h w :
  assoc k (c_environ w) = None -> assoc "HOME" (c_environ w) = Some h ->
  match assoc (config_path_of h) (c_files w) with
  | None => True
  | Some (CfgJson config) => assoc k config = None
  | Some CfgMalformed => False
  end ->
  get_config (PStr k) default raise_error w =
  (w, if raise_error then CRaise CKeyError else COk default).
Proof.
  intros Hk Hh Hf. unfold get_config, get_config_path, cbind, cget, cret, craise.
  rewrite Hk, Hh. fold (config_path_of h).
  destruct (assoc (config_path_of h) (c_files w)) as [[config|]|];
    [rewrite Hf | contradiction | ]; destruct raise_error; reflexivity.
Qed.

Lemma get_config_missing_key_witness :
  let w := mkCWorld [("HOME", "/home/u")] ["/home/u"]
             [("/home/u/.mne/mne-python.json",
               CfgJson [("MNE_USE_CUDA", PStr "true")])] [] [] (PInt 0) in
  assoc "SUBJECTS_DIR" (c_environ w) = None /\
  assoc "HOME" (c_environ w) = Some "/home/u" /\
  assoc "SUBJECTS_DIR" [("MNE_USE_CUDA", PStr "true")] = None /\
  get_config (PStr "SUBJECTS_DIR") PNone true w = (w, CRaise CKeyError).
Proof.
  intros w. split; [reflexivity|]. split; [reflexivity|].
  split; [reflexivity|].
  exact (get_config_missing_key "SUBJECTS_DIR" PNone true "/home/u" w
           eq_refl eq_refl eq_refl).
Defined.

Ltac cfg_case H :=
  repeat (cbv beta iota zeta in H;
          cbn [c_environ c_dirs c_files c_warnings c_info c_level] in H;
          match type of H with
          | context [if ?b then _ else _] => destruct b eqn:?
          | context [match ?x with Some _ => _ | None => _ end] => destruct x eqn:?
          | context [match ?x with CfgJson _ => _ | CfgMalformed => _ end] =>
              destruct x eqn:?
          end);
  try discriminate H.

Lemma set_config_ok_inv k value w w' :
  set_config (PStr k) value w = (w', COk tt) ->
  exists h config,
    assoc "HOME" (c_environ w) = Some h /\
    (assoc (config_path_of h) (c_files w) = None /\ config = [] \/
     assoc (config_path_of h) (c_files w) = Some (CfgJson config)) /\
    c_environ w' = c_environ w /\ c_level w' = c_level w /\
    c_files w' =
      dict_set (config_path_of h)
        (CfgJson (match value with
                  | PStr v => dict_set k (PStr v) config
                  | _ => dict_pop k config
                  end)) (c_files w).
Proof.
  intros H.
  destruct value as [|b|z|v|]; try discriminate H;
  unfold set_config, get_config_path, os_mkdir, write_json, cbind, cwhen, cwarn, cinfo, cmodify,
    cget, cret, craise, with_dirs, with_files in H;
  cfg_case H.
  all: injection H as <-; eexists _, _; split; [reflexivity|];
    split; [first [left; split; [eassumption|reflexivity] | right; eassumption]|];
    split; [reflexivity|]; split; reflexivity.
Qed.

Lemma assoc_dict_set_same {B} k (v : B) d : assoc k (dict_set k v d) = Some v.
Proof.
  induction d as [|[k' v'] d IH]; cbn; [rewrite String.eqb_refl; reflexivity|].
  destruct (String.eqb k k') eqn:E; cbn; rewrite ?E; [reflexivity|exact IH].
Qed.

Lemma assoc_dict_set_other {B} k k' (v : B) d :
  k' <> k -> assoc k' (dict_set k v d) = assoc k' d.
Proof.
  intros Hne. induction d as [|[k0 v0] d IH]; cbn.
  - apply String.eqb_neq in Hne. rewrite Hne. reflexivity.
  - destruct (String.eqb k k0) eqn:E; cbn; [|rewrite IH; reflexivity].
    apply String.eqb_eq in E. subst k0. apply String.eqb_neq in Hne.
    rewrite Hne. reflexivity.
Qed.

Lemma assoc_dict_pop_same {B} k (d : list (string * B)) :
  assoc k (dict_pop k d) = None.
Proof.
  unfold dict_pop. induction d as [|[k0 v0] d IH]; [reflexivity|].
  cbn [filter fst]. destruct (String.eqb k k0) eqn:E; cbn [negb]; [exact IH|].
  cbn [assoc]. rewrite E. exact IH.
Qed.

Lemma assoc_dict_pop_other {B} k k' (d : list (string * B)) :
  k' <> k -> assoc k' (dict_pop k d) = assoc k' d.
Proof.
  intros Hne. unfold dict_pop. induction d as [|[k0 v0] d IH]; [reflexivity|].
  cbn [filter fst]. destruct (String.eqb k k0) eqn:E; cbn [negb assoc].
  - apply String.eqb_eq in E. subst k0. apply String.eqb_neq in Hne.
    rewrite Hne. exact IH.
  - rewrite IH. reflexivity.
Qed.

(** A successful [set_config(key, value)] is seen by a later
    [get_config(key)], unless [os.environ] overrides the key. *)
Theorem set_config_roundtrip k v default raise_error w w' :
  set_config (PStr k) (PStr v) w = (w', COk tt) ->
  assoc k (c_environ w) = None ->
  get_config (PStr k) default raise_error w' = (w', COk (PStr v)).
Proof.
  intros H Hk.
  destruct (set_config_ok_inv k (PStr v) w w' H)
    as (h & config & Hh & _ & Henv & _ & Hfiles).
  unfold get_config, get_config_path, cbind, cget, cret. cbv beta iota zeta.
  rewrite Henv, Hk. cbv beta iota zeta. rewrite Henv, Hh. cbv beta iota zeta.
  fold (config_path_of h).
  rewrite Hfiles, assoc_dict_set_same, assoc_dict_set_same. reflexivity.
Qed.

(** After a successful [set_config(key, None)] the key is gone from the
    file: [get_config(key)] gives the default, or [KeyError] when
    [raise_error] is [True], unless [os.environ] has the key. *)
Theorem set_config_none_deletes k default raise_error w w' :
  set_config (PStr k) PNone w = (w', COk tt) ->
  assoc k (c_environ w) = None ->
  get_config (PStr k) default raise_error w' =
  (w', if raise_error then CRaise CKeyError else COk default).
Proof.
  intros H Hk.
  destruct (set_config_ok_inv k PNone w w' H)
    as (h & config & Hh & _ & Henv & _ & Hfiles).
  unfold get_config, get_config_path, cbind, cget, cret, craise.
  cbv beta iota zeta.
  rewrite Henv, Hk. cbv beta iota zeta. rewrite Henv, Hh. cbv beta iota zeta.
  fold (config_path_of h).
  rewrite Hfiles, assoc_dict_set_same, assoc_dict_pop_same.
  destruct raise_error; reflexivity.
Qed.

Lemma set_config_roundtrip_witness :
  let w := mkCWorld [("HOME", "/home/u")] ["/home/u"] [] [] [] (PInt 0) in
  let w' := fst (set_config (PStr "SUBJECTS_DIR") (PStr "/subjects") w) in
  set_config (PStr "SUBJECTS_DIR") (PStr "/subjects") w = (w', COk tt) /\
  assoc "SUBJECTS_DIR" (c_environ w) = None /\
  get_config (PStr "SUBJECTS_DIR") PNone true w' = (w', COk (PStr "/subjects")).
Proof.
  intros w w'. split; [vm_compute; reflexivity|]. split; [reflexivity|].
  exact (set_config_roundtrip "SUBJECTS_DIR" "/subjects" PNone true w w'
           ltac:(vm_compute; reflexivity) eq_refl).
Defined.

Lemma set_config_none_deletes_witness :
  let w := mkCWorld [("HOME", "/home/u")] ["/home/u"; "/home/u/.mne"]
             [("/home/u/.mne/mne-python.json",
               CfgJson [("SUBJECTS_DIR", PStr "/subjects")])] [] [] (PInt 0) in
  let w' := fst (set_config (PStr "SUBJECTS_DIR") PNone w) in
  set_config (PStr "SUBJECTS_DIR") PNone w = (w', COk tt) /\
  assoc "SUBJECTS_DIR" (c_environ w) = None /\
  get_config (PStr "SUBJECTS_DIR") PNone true w' =
    (w', if true then CRaise CKeyError else COk PNone).
Proof.
  intros w w'. split; [vm_compute; reflexivity|]. split; [reflexivity|].
  exact (set_config_none_deletes "SUBJECTS_DIR" PNone true w w'
           ltac:(vm_compute; reflexivity) eq_refl).
Defined.

(** A successful [set_config(key, value)] leaves what [get_config] returns
    for every other key unchanged. *)
Theorem set_config_other_keys k value k' default raise_error w w' :
  set_config (PStr k) value w = (w', COk tt) -> k' <> k ->
  snd (get_config (PStr k') default raise_error w') =
  snd (get_config (PStr k') default raise_error w).
Proof.
  intros H Hne.
  destruct (set_config_ok_inv k value w w' H)
    as (h & config & Hh & Hold & Henv & _ & Hfiles).
  unfold get_config, get_config_path, cbind, cget, cret, craise.
  cbv beta iota zeta. rewrite Henv.
  destruct (assoc k' (c_environ w)); [reflexivity|]. cbv beta iota zeta.
  rewrite Henv, Hh. cbv beta iota zeta. fold (config_path_of h).
  rewrite Hfiles, assoc_dict_set_same.
  assert (Hk' : assoc k' (match value with
                          | PStr v => dict_set k (PStr v) config
                          | _ => dict_pop k config
                          end) = assoc k' config)
    by (destruct value; first [apply assoc_dict_set_other | apply assoc_dict_pop_other];
        exact Hne).
  rewrite Hk'.
  destruct Hold as [[Hnone ->]|Hjson];
    [rewrite Hnone | rewrite Hjson; destruct (assoc k' config)];
    destruct raise_error; reflexivity.
Qed.

Lemma set_config_other_keys_witness :
  let w := mkCWorld [("HOME", "/home/u")] ["/home/u"] [] [] [] (PInt 0) in
  let w' := fst (set_config (PStr "SUBJECTS_DIR") (PStr "/subjects") w) in
  set_config (PStr "SUBJECTS_DIR") (PStr "/subjects") w = (w', COk tt) /\
  "MNE_USE_CUDA" <> "SUBJECTS_DIR" /\
  snd (get_config (PStr "MNE_USE_CUDA") (PStr "false") false w') =
  snd (get_config (PStr "MNE_USE_CUDA") (PStr "false") false w).
Proof.
  intros w w'. split; [vm_compute; reflexivity|]. split; [discriminate|].
  exact (set_config_other_keys "SUBJECTS_DIR" (PStr "/subjects") "MNE_USE_CUDA"
           (PStr "false") false w w' ltac:(vm_compute; reflexivity)
           ltac:(discriminate)).
Defined.

(** For a string key and a string or [None] value, [set_config] issues the
    ["Setting non-standard config type"] warning exactly when the key is
    neither a known config type nor contains a known wildcard, whether or
    not it then succeeds; it never changes [os.environ] or the logger
    level. *)
Theorem set_config_warning k value w :
  match value with PStr _ | PNone => True | _ => False end ->
  c_warnings (fst (set_config (PStr k) value w)) =
    c_warnings w ++
    (if known_key k then []
     else [("Setting non-standard config type: " ++ dquote ++ k ++ dquote)%string]) /\
  c_environ (fst (set_config (PStr k) value w)) = c_environ w /\
  c_level (fst (set_config (PStr k) value w)) = c_level w.
Proof.
  intros Hv.
  destruct (set_config (PStr k) value w) as [w' r] eqn:H. cbn [fst].
  destruct (known_key k) eqn:Hkn;
  destruct value as [|b|z|v|]; try contradiction;
  unfold set_config, get_config_path, os_mkdir, write_json, cbind, cwhen,
    cwarn, cinfo, cmodify, cget, cret, craise, with_dirs, with_files in H;
  rewrite Hkn in H; cbn [negb] in H;
  cfg_case H;
  injection H as <- <-; cbn [c_warnings c_environ c_level];
    rewrite ?app_nil_r; (split; [|split]); reflexivity.
Qed.

Lemma set_config_warning_witness :
  let w := mkCWorld [("HOME", "/home/u")] ["/home/u"] [] [] [] (PInt 0) in
  (match PStr "1" with PStr _ | PNone => True | _ => False end) /\
  c_warnings (fst (set_config (PStr "MNE_STIM_CHANNEL_1") (PStr "1") w)) =
    c_warnings w ++
    (if known_key "MNE_STIM_CHANNEL_1" then []
     else [("Setting non-standard config type: " ++ dquote ++
            "MNE_STIM_CHANNEL_1" ++ dquote)%string]) /\
  c_environ (fst (set_config (PStr "MNE_STIM_CHANNEL_1") (PStr "1") w)) =
    c_environ w /\
  c_level (fst (set_config (PStr "MNE_STIM_CHANNEL_1") (PStr "1") w)) =
    c_level w.
Proof.
  intros w. split; [exact I|].
  exact (set_config_warning "MNE_STIM_CHANNEL_1" (PStr "1") w I).
Defined.

Lemma str_app_nil (s : string) : (s ++ "")%string = s.
Proof. induction s as [|c s IH]; cbn; [reflexivity|rewrite IH; reflexivity]. Qed.

Lemma str_app_assoc (s1 s2 s3 : string) :
  (s1 ++ (s2 ++ s3))%string = ((s1 ++ s2) ++ s3)%string.
Proof. induction s1 as [|c s1 IH]; cbn; [reflexivity|rewrite IH; reflexivity]. Qed.

Lemma rev_string_app (s1 s2 acc : string) :
  rev_string (s1 ++ s2)%string acc = rev_string s2 (rev_string s1 acc).
Proof. revert acc. induction s1 as [|c s1 IH]; intros acc; [reflexivity|]. apply IH. Qed.

Lemma rev_string_rev (s acc t : string) :
  rev_string (rev_string s acc) t = rev_string acc (s ++ t)%string.
Proof. revert acc. induction s as [|c s IH]; intros acc; [reflexivity|]. apply IH. Qed.

Lemma rev_string_involutive (s : string) :
  rev_string (rev_string s "") "" = s.
Proof. rewrite rev_string_rev. apply str_app_nil. Qed.

Lemma all_slashes_app (s1 s2 : string) :
  all_slashes (s1 ++ s2)%string = all_slashes s1 && all_slashes s2.
Proof.
  induction s1 as [|c s1 IH]; [reflexivity|]. cbn.
  destruct (ascii_dec c "/"); [exact IH|reflexivity].
Qed.

Lemma str_length_app (s1 s2 : string) :
  String.length (s1 ++ s2)%string = (String.length s1 + String.length s2)%nat.
Proof. induction s1 as [|c s1 IH]; cbn; [reflexivity|rewrite IH; reflexivity]. Qed.

Lemma get_last_mne (b : string) :
  String.get (String.length (b ++ ".mne")%string - 1) (b ++ ".mne")%string =
  Some "e"%char.
Proof.
  induction b as [|c b IH]; [reflexivity|].
  cbn [append String.length].
  rewrite str_length_app in *. cbn [String.length] in *.
  replace (S (String.length b + 4) - 1)%nat
    with (S (String.length b + 4 - 1)) by lia.
  exact IH.
Qed.

Lemma path_join_cases (a b : string) :
  (a = "" /\ path_join a b = b) \/ path_join a b = (a ++ b)%string \/
  path_join a b = (a ++ "/" ++ b)%string.
Proof.
  unfold path_join. destruct a as [|c r]; [left; split; reflexivity|right].
  destruct (String.get _ _) as [[[] [] [] [] [] [] [] []]|];
    first [left; reflexivity | right; reflexivity].
Qed.

Lemma path_join_mne_ends (h : string) :
  exists b, path_join h ".mne" = (b ++ ".mne")%string.
Proof.
  destruct (path_join_cases h ".mne") as [[_ ->]|[->| ->]].
  - exists ""; reflexivity.
  - exists h; reflexivity.
  - exists (h ++ "/")%string. rewrite str_app_assoc. reflexivity.
Qed.

(** The directory [set_config] creates is [$HOME/.mne]. *)
Lemma split_config_path (h : string) :
  path_split_head (config_path_of h) = path_join h ".mne".
Proof.
  destruct (path_join_mne_ends h) as [b Hb]. unfold config_path_of. rewrite Hb.
  assert (Hj : path_join (b ++ ".mne") "mne-python.json" =
               ((b ++ ".mne") ++ "/" ++ "mne-python.json")%string).
  { unfold path_join. destruct (b ++ ".mne")%string as [|c r] eqn:E.
    - destruct b; discriminate.
    - rewrite <- E, get_last_mne. reflexivity. }
  rewrite Hj. unfold path_split_head.
  rewrite rev_string_app.
  remember (rev_string (b ++ ".mne") "") as X eqn:HX.
  cbn.
  assert (Hh : rev_string X "/" = ((b ++ ".mne") ++ "/")%string)
    by (rewrite HX, rev_string_rev; reflexivity).
  rewrite Hh.
  assert (He : String.eqb ((b ++ ".mne") ++ "/")%string "" = false)
    by (destruct b; reflexivity).
  assert (Ha : all_slashes ((b ++ ".mne") ++ "/")%string = false)
    by (rewrite !all_slashes_app; destruct (all_slashes b); reflexivity).
  rewrite He, Ha. cbn [negb andb].
  rewrite rev_string_app. cbn.
  rewrite rev_string_app. cbn.
  rewrite rev_string_rev. reflexivity.
Qed.

(** [set_config] on a config file that is not valid JSON raises
    [ValueError] and leaves the file and the directories as they were. *)
Theorem set_config_malformed k value h w :
  match value with PStr _ | PNone => True | _ => False end ->
  assoc "HOME" (c_environ w) = Some h ->
  assoc (config_path_of h) (c_files w) = Some CfgMalformed ->
  snd (set_config (PStr k) value w) = CRaise CValueError /\
  c_files (fst (set_config (PStr k) value w)) = c_files w /\
  c_dirs (fst (set_config (PStr k) value w)) = c_dirs w.
Proof.
  intros Hv Hh Hf. unfold config_path_of in Hf.
  destruct (set_config (PStr k) value w) as [w' r] eqn:H. cbn [fst snd].
  destruct value as [|b|z|v|]; try contradiction;
  unfold set_config, get_config_path, os_mkdir, write_json, cbind, cwhen,
    cwarn, cinfo, cmodify, cget, cret, craise, with_dirs, with_files in H;
  cfg_case H; try congruence;
  injection H as <- <-; (split; [|split]); reflexivity.
Qed.

Lemma set_config_malformed_witness :
  let w := mkCWorld [("HOME", "/home/u")] ["/home/u"; "/home/u/.mne"]
             [("/home/u/.mne/mne-python.json", CfgMalformed)] [] [] (PInt 0) in
  (match PStr "1" with PStr _ | PNone => True | _ => False end) /\
  assoc "HOME" (c_environ w) = Some "/home/u" /\
  assoc (config_path_of "/home/u") (c_files w) = Some CfgMalformed /\
  snd (set_config (PStr "MNE_USE_CUDA") (PStr "1") w) = CRaise CValueError /\
  c_files (fst (set_config (PStr "MNE_USE_CUDA") (PStr "1") w)) = c_files w /\
  c_dirs (fst (set_config (PStr "MNE_USE_CUDA") (PStr "1") w)) = c_dirs w.
Proof.
  intros w. split; [exact I|]. split; [reflexivity|]. split; [reflexivity|].
  exact (set_config_malformed "MNE_USE_CUDA" (PStr "1") "/home/u" w I
           eq_refl eq_refl).
Defined.

(** When [$HOME/.mne] does not exist and neither does its parent
    directory, [set_config] raises [OSError] from [os.mkdir] and writes
    no file and no directory. *)
Theorem set_config_no_parent_dir k value h w :
  match value with PStr _ | PNone => True | _ => False end ->
  assoc "HOME" (c_environ w) = Some h ->
  match assoc (config_path_of h) (c_files w) with
  | Some CfgMalformed => False
  | _ => True
  end ->
  is_dir w (path_join h ".mne") = false ->
  assoc (path_join h ".mne") (c_files w) = None ->
  path_split_head (path_join h ".mne") <> "" ->
  is_dir w (path_split_head (path_join h ".mne")) = false ->
  snd (set_config (PStr k) value w) = CRaise COSError /\
  c_files (fst (set_config (PStr k) value w)) = c_files w /\
  c_dirs (fst (set_config (PStr k) value w)) = c_dirs w.
Proof.
  intros Hv Hh Hf Hd Hdf Hpe Hpd.
  apply String.eqb_neq in Hpe. unfold is_dir in Hd, Hpd.
  destruct (set_config (PStr k) value w) as [w' r] eqn:H. cbn [fst snd].
  destruct value as [|b|z|v|]; try contradiction;
  unfold set_config, get_config_path, os_mkdir, write_json, cbind, cwhen,
    cwarn, cinfo, cmodify, cget, cret, craise, with_dirs, with_files, is_dir in H;
  cfg_case H; try congruence.
  all: match goal with Hs : Some ?s = Some ?t |- _ =>
         injection Hs as Hst; subst s end.
  all: fold (config_path_of h) in *; rewrite ?split_config_path in *.
  all: rewrite ?Hd, ?Hdf, ?Hpe, ?Hpd in *; cbn [negb orb is_some] in *;
    try discriminate.
  all: first
    [ injection H as <- <-; (split; [|split]); reflexivity
    | match goal with Hx : assoc _ _ = Some CfgMalformed |- _ =>
        rewrite Hx in Hf; contradiction end ].
Qed.

Lemma set_config_no_parent_dir_witness :
  let w := mkCWorld [("HOME", "/home/u")] [] [] [] [] (PInt 0) in
  (match PStr "1" with PStr _ | PNone => True | _ => False end) /\
  assoc "HOME" (c_environ w) = Some "/home/u" /\
  (match assoc (config_path_of "/home/u") (c_files w) with
   | Some CfgMalformed => False
   | _ => True
   end) /\
  is_dir w (path_join "/home/u" ".mne") = false /\
  assoc (path_join "/home/u" ".mne") (c_files w) = None /\
  path_split_head (path_join "/home/u" ".mne") <> "" /\
  is_dir w (path_split_head (path_join "/home/u" ".mne")) = false /\
  snd (set_config (PStr "MNE_USE_CUDA") (PStr "1") w) = CRaise COSError /\
  c_files (fst (set_config (PStr "MNE_USE_CUDA") (PStr "1") w)) = c_files w /\
  c_dirs (fst (set_config (PStr "MNE_USE_CUDA") (PStr "1") w)) = c_dirs w.
Proof.
  intros w. split; [exact I|]. split; [reflexivity|]. split; [exact I|].
  split; [reflexivity|]. split; [reflexivity|].
  split; [vm_compute; discriminate|]. split; [vm_compute; reflexivity|].
  exact (set_config_no_parent_dir "MNE_USE_CUDA" (PStr "1") "/home/u" w I
           eq_refl I eq_refl eq_refl ltac:(vm_compute; discriminate)
           ltac:(vm_compute; reflexivity)).
Defined.

(** [set_config] with a key that is not a string, or a value that is
    neither a string nor [None], raises [ValueError] before anything else:
    no warning, no file, no directory. *)
Theorem set_config_rejects key value w :
  match key, value with
  | PStr _, (PStr _ | PNone) => False
  | _, _ => True
  end ->
  set_config key value w = (w, CRaise CValueError).
Proof.
  intros H. destruct key, value; try contradiction; reflexivity.
Qed.

Lemma set_config_rejects_witness :
  let w := mkCWorld [("HOME", "/home/u")] ["/home/u"] [] [] [] (PInt 0) in
  (match PStr "MNE_USE_CUDA", PBool true with
   | PStr _, (PStr _ | PNone) => False
   | _, _ => True
   end) /\
  set_config (PStr "MNE_USE_CUDA") (PBool true) w = (w, CRaise CValueError).
Proof.
  intros w. split; [exact I|].
  exact (set_config_rejects (PStr "MNE_USE_CUDA") (PBool true) w I).
Defined.

(** ** [set_log_level] and [@verbose] *)

Lemma ascii_upper_idem c : ascii_upper (ascii_upper c) = ascii_upper c.
Proof.
  destruct c as [[] [] [] [] [] [] [] []]; vm_compute; reflexivity.
Qed.

Lemma str_upper_idem s : str_upper (str_upper s) = str_upper s.
Proof.
  induction s as [|c s IH]; cbn; [reflexivity|]. rewrite ascii_upper_idem, IH.
  reflexivity.
Qed.

Lemma get_config_world key default raise_error w :
  fst (get_config key default raise_error w) = w.
Proof.
  destruct key as [| | |k|]; try reflexivity.
  unfold get_config, get_config_path, cbind, cget, cret, craise.
  destruct (assoc k (c_environ w)); [reflexivity|].
  destruct (assoc "HOME" (c_environ w)); [|reflexivity].
  destruct (assoc _ (c_files w)) as [[config|]|];
    [destruct (assoc k config)| |]; destruct raise_error; reflexivity.
Qed.

(** A successful [set_log_level(v, True)] returns the level the logger had
    before the call. *)
Lemma set_log_level_old v w w1 old :
  set_log_level v true w = (w1, COk old) -> old = c_level w.
Proof.
  intros H.
  pose proof (get_config_world (PStr "MNE_LOGGING_LEVEL") (PStr "INFO") false w)
    as Hg.
  unfold set_log_level, cbind in H.
  destruct v as [|[]| |s|];
    [destruct (get_config _ _ _ w) as [w0 [v0|e]] eqn:Eg; cbn in Hg; subst w0;
     [|discriminate H] | | | | |];
    unfold cret, cget, craise in H; cbv beta iota zeta in H;
    try (destruct v0 as [| | |s|]);
    try (destruct (assoc (str_upper s) logging_types); [|discriminate H]);
    unfold setLevel, cmodify, craise in H; cbv beta iota zeta in H;
    try discriminate H; injection H as _ Ho; congruence.
Qed.

(** [set_log_level] reads a level name case-insensitively: a string and
    its upper-cased form have the same effect and result. *)
Theorem set_log_level_case_insensitive s return_old_level :
  set_log_level (PStr s) return_old_level =
  set_log_level (PStr (str_upper s)) return_old_level.
Proof.
  unfold set_log_level, cbind, cret. cbv beta iota. rewrite str_upper_idem.
  reflexivity.
Qed.

(** A level given as a string sets the logger to the number of that level
    name (case-insensitive) and returns the old level when asked, and
    [None] otherwise; any other name raises [ValueError] and leaves the
    logger alone. *)
Theorem set_log_level_string s return_old_level w :
  set_log_level (PStr s) return_old_level w =
  match assoc (str_upper s) logging_types with
  | Some n =>
      (with_level w (PInt n),
       COk (if return_old_level then c_level w else PNone))
  | None => (w, CRaise CValueError)
  end.
Proof.
  unfold set_log_level, setLevel, cbind, cret, cget, cmodify, craise.
  cbv beta iota. destruct (assoc (str_upper s) logging_types); reflexivity.
Qed.

(** With [verbose=None] the level comes from [MNE_LOGGING_LEVEL] through
    [get_config], with default [INFO]: when neither [os.environ] nor an
    existing config file sets it, the logger is set to 20. *)
Theorem set_log_level_none_default return_old_level h w :
  assoc "MNE_LOGGING_LEVEL" (c_environ w) = None ->
  assoc "HOME" (c_environ w) = Some h ->
  match assoc (config_path_of h) (c_files w) with
  | None => True
  | Some (CfgJson config) => assoc "MNE_LOGGING_LEVEL" config = None
  | Some CfgMalformed => False
  end ->
  set_log_level PNone return_old_level w =
  (with_level w (PInt 20%Z),
   COk (if return_old_level then c_level w else PNone)).
Proof.
  intros Hk Hh Hf.
  unfold set_log_level, get_config, get_config_path, setLevel, cbind, cret,
    cget, cmodify, craise.
  cbv beta iota zeta. rewrite Hk. cbv beta iota zeta. rewrite Hh.
  cbv beta iota zeta. fold (config_path_of h).
  destruct (assoc (config_path_of h) (c_files w)) as [[config|]|];
    [rewrite Hf | contradiction | ]; reflexivity.
Qed.

Lemma set_log_level_none_default_witness :
  let w := mkCWorld [("HOME", "/home/u")] ["/home/u"] [] [] [] (PInt 30) in
  assoc "MNE_LOGGING_LEVEL" (c_environ w) = None /\
  assoc "HOME" (c_environ w) = Some "/home/u" /\
  set_log_level PNone true w = (with_level w (PInt 20%Z), COk (PInt 30)).
Proof.
  intros w. split; [reflexivity|split; [reflexivity|]].
  exact (set_log_level_none_default true "/home/u" w eq_refl eq_refl I).
Defined.

(** A function decorated with [@verbose], run at an explicit level while
    the logger is at an integer level [z], runs on the state that
    [set_log_level] leaves and then gets the logger back to [z], whether
    it returns or raises; its result or exception is passed on unchanged. *)
Theorem verbose_restores_level {A} default_level kw_verbose (function : CM A)
    z w w1 old :
  c_level w = PInt z ->
  match kw_verbose with Some v => v | None => default_level end <> PNone ->
  set_log_level (match kw_verbose with Some v => v | None => default_level end)
    true w = (w1, COk old) ->
  verbose_dec default_level kw_verbose function w =
  let '(w2, r) := function w1 in (with_level w2 (PInt z), r).
Proof.
  intros Hz Hv Hs. pose proof (set_log_level_old _ _ _ _ Hs) as Ho.
  rewrite Hz in Ho. subst old. unfold verbose_dec.
  destruct (match kw_verbose with Some v => v | None => default_level end)
    as [| | | |] eqn:E; [contradiction| | | |];
  unfold cbind; rewrite Hs; unfold ctry;
  destruct (function w1) as [w2 [a|e]]; reflexivity.
Qed.

Lemma verbose_restores_level_witness :
  let w := mkCWorld [] [] [] [] [] (PInt 30) in
  let w1 := with_level w (PInt 10) in
  c_level w = PInt 30 /\
  set_log_level (PStr "debug") true w = (w1, COk (PInt 30)) /\
  verbose_dec PNone (Some (PStr "debug")) (craise CKeyError : CM unit) w =
  (w, CRaise CKeyError).
Proof.
  intros w w1. split; [reflexivity|split; [reflexivity|]].
  rewrite (verbose_restores_level PNone (Some (PStr "debug"))
             (craise CKeyError : CM unit) 30%Z w w1 (PInt 30) eq_refl
             ltac:(discriminate) eq_refl).
  reflexivity.
Defined.

(** ** [_check_fname], [_check_subject], [_check_pandas_index_arguments] *)

(** When [_check_fname] passes with a false [overwrite], the file does not
    exist; it never creates, removes or changes a file or directory. *)
Theorem check_fname_guard f overwrite w w' :
  _check_fname (PStr f) overwrite w = (w', COk tt) ->
  (truthy overwrite = false -> is_file w f = false) /\
  c_files w' = c_files w /\ c_dirs w' = c_dirs w /\ c_environ w' = c_environ w.
Proof.
  unfold _check_fname, cbind, cget, cret, craise, cinfo, cmodify.
  cbv beta iota zeta.
  destruct (is_file w f), (truthy overwrite); cbn; intros H;
    try discriminate H; injection H as <-; cbn; repeat split;
    try reflexivity; discriminate.
Qed.

Lemma check_fname_guard_witness :
  let w := mkCWorld [] ["/d"] [("/d/x.fif", CfgMalformed)] [] [] (PInt 20) in
  _check_fname (PStr "/d/y.fif") (PBool false) w = (w, COk tt) /\
  is_file w "/d/y.fif" = false.
Proof.
  intros w. split; [reflexivity|].
  exact (proj1 (check_fname_guard "/d/y.fif" (PBool false) w w eq_refl)
           eq_refl).
Defined.

(** [_check_subject] returns the input subject when one is given, the
    class subject otherwise, and never a value that is not a string other
    than [None]; [None] only when both are [None] and [raise_error] is not
    the [True] object. *)
Theorem check_subject_result class_subject input_subject raise_error r :
  _check_subject class_subject input_subject raise_error = COk r ->
  (exists s, r = PStr s /\
     (input_subject = PStr s \/
      (input_subject = PNone /\ class_subject = PStr s))) \/
  (r = PNone /\ input_subject = PNone /\ class_subject = PNone /\
   raise_error <> PBool true).
Proof.
  unfold _check_subject.
  destruct input_subject as [| | |si|]; try discriminate;
    [destruct class_subject as [| | |sc|]; try discriminate|].
  - destruct raise_error as [|[]| | |]; intros H; try discriminate H;
      injection H as <-; right; repeat split; discriminate.
  - intros H; injection H as <-. left. exists sc. auto.
  - intros H; injection H as <-. left. exists si. auto.
Qed.

Lemma check_subject_result_witness :
  _check_subject PNone PNone (PInt 1) = COk PNone /\ PInt 1 <> PBool true.
Proof.
  split; [reflexivity|].
  destruct (check_subject_result PNone PNone (PInt 1) PNone eq_refl)
    as [(s & Hs & _)|(_ & _ & _ & H)]; [discriminate Hs|exact H].
Defined.

Lemma opt_str_eqb_spec a b : opt_str_eqb a b = true <-> a = b.
Proof.
  destruct a as [x|], b as [y|]; cbn; split; intros H; try discriminate;
    try reflexivity.
  - apply String.eqb_eq in H. subst. reflexivity.
  - injection H as ->. apply String.eqb_refl.
Qed.

Lemma existsb_opt_str_eqb e d : existsb (opt_str_eqb e) d = true <-> In e d.
Proof.
  rewrite existsb_exists. split.
  - intros (x & Hx & He). apply opt_str_eqb_spec in He. subst. exact Hx.
  - intros H. exists e. split; [exact H|]. apply opt_str_eqb_spec. reflexivity.
Qed.

Lemma filter_nil_Forall {A} (f : A -> bool) l :
  filter f l = [] <-> Forall (fun x => f x = false) l.
Proof.
  induction l as [|a l IH]; cbn; [split; auto|].
  destruct (f a) eqn:E; split; intros H.
  - discriminate H.
  - inversion H; congruence.
  - constructor; [exact E|]. apply IH, H.
  - inversion H; subst. apply IH. assumption.
Qed.

Lemma join_strs_total sep l :
  (exists y, join_strs sep l = Some y) <-> forallb is_some l = true.
Proof.
  induction l as [|a l IH]; [cbn; split; eauto|].
  destruct a as [x|]; cbn.
  - destruct l as [|b l']; [cbn; split; eauto|].
    destruct (join_strs sep (b :: l')) eqn:E.
    + split; [intros _; apply IH; eauto|eauto].
    + split; [intros (y & Hy); discriminate Hy|].
      intros H. apply IH in H. destruct H as (y & Hy). congruence.
  - split; [intros (y & Hy); discriminate Hy|discriminate].
Qed.

(** [_check_pandas_index_arguments] passes exactly when every requested
    index value, a single one or each of a list or tuple, is one of the
    defaults. *)
Theorem check_pandas_index_ok index defaults :
  _check_pandas_index_arguments index defaults = COk tt <->
  Forall (fun e => In e defaults) (index_list index).
Proof.
  unfold _check_pandas_index_arguments.
  assert (Hf : filter (fun e => negb (existsb (opt_str_eqb e) defaults))
                 (index_list index) = [] <->
               Forall (fun e => In e defaults) (index_list index)).
  { rewrite filter_nil_Forall. split; intros H; eapply Forall_impl; try exact H;
      intros e He; cbn in He.
    - apply existsb_opt_str_eqb. destruct (existsb _ _); [reflexivity|discriminate].
    - apply existsb_opt_str_eqb in He. rewrite He. reflexivity. }
  rewrite <- Hf. cbv zeta.
  destruct (filter _ (index_list index)); [split; reflexivity|].
  split; [|discriminate]. intros H.
  destruct (join_strs _ _), (join_strs ", " defaults); discriminate H.
Qed.

Lemma filter_not_in_is_some (defaults : list (option string)) l :
  forallb is_some defaults = true ->
  forallb is_some (filter (fun e => negb (existsb (opt_str_eqb e) defaults)) l) =
  forallb is_some l.
Proof.
  intros Hd. induction l as [|a l IH]; [reflexivity|]. cbn.
  destruct (existsb (opt_str_eqb a) defaults) eqn:E; cbn; rewrite IH;
    [|reflexivity].
  apply existsb_opt_str_eqb in E. rewrite forallb_forall in Hd.
  rewrite (Hd a E). reflexivity.
Qed.

(** When some requested index value is not a default, the check raises
    [ValueError] if all index values and defaults are strings, and
    [TypeError] otherwise: building the message with [', '.join] fails on
    [None], so passing [None] where it is not a default never gives the
    [ValueError]. *)
Theorem check_pandas_index_errors index defaults e :
  In e (index_list index) -> ~ In e defaults ->
  _check_pandas_index_arguments index defaults =
  CRaise (if forallb is_some (index_list index) && forallb is_some defaults
          then CValueError else CTypeError).
Proof.
  intros Hi Hn. unfold _check_pandas_index_arguments. cbv zeta.
  remember (filter (fun e => negb (existsb (opt_str_eqb e) defaults))
              (index_list index)) as inv eqn:Einv.
  assert (Hinv : In e inv).
  { subst inv. apply filter_In. split; [exact Hi|].
    destruct (existsb (opt_str_eqb e) defaults) eqn:E; [|reflexivity].
    apply existsb_opt_str_eqb in E. contradiction. }
  assert (Hj : forall l, join_strs ", " l = None <-> forallb is_some l = false).
  { intros l. rewrite <- not_true_iff_false, <- (join_strs_total ", " l).
    split; [intros H (y & Hy); congruence|].
    intros H. destruct (join_strs ", " l) eqn:E; [|reflexivity].
    exfalso. apply H. eauto. }
  destruct inv as [|a r]; [destruct Hinv|]. cbv iota. rewrite Einv.
  destruct (forallb is_some defaults) eqn:Ed.
  - rewrite <- (filter_not_in_is_some defaults _ Ed), andb_true_r.
    destruct (forallb is_some (filter _ _)) eqn:Ei.
    + destruct (proj2 (join_strs_total ", " _) Ei) as (y & ->).
      destruct (proj2 (join_strs_total ", " defaults) Ed) as (z & ->).
      reflexivity.
    + apply Hj in Ei. rewrite Ei. reflexivity.
  - rewrite andb_false_r. apply Hj in Ed. rewrite Ed.
    destruct (join_strs ", " (filter _ _)); reflexivity.
Qed.

Lemma check_pandas_index_errors_witness :
  In None (index_list (inr None)) /\
  ~ In None [Some "time"; Some "condition"] /\
  _check_pandas_index_arguments (inr None) [Some "time"; Some "condition"] =
  CRaise CTypeError.
Proof.
  assert (Hn : ~ In None [Some "time"; Some "condition"]).
  { cbn. intros [H|[H|[]]]; discriminate H. }
  split; [left; reflexivity|split; [exact Hn|]].
  exact (check_pandas_index_errors (inr None) [Some "time"; Some "condition"]
           None (or_introl eq_refl) Hn).
Defined.
